(** * Smart planner: schedule analysis and plan consolidation

    A shallow embedding of
      - [CalendarAgent.analyze_schedule]   (agents/calendar_agent.py),
      - [CalendarAgent.invoke]             (agents/calendar_agent.py),
      - [combine_agent_outputs]            (main.py),
      - [run_planner]                      (main.py),
      - the models of                      (models/schemas.py),
      - [parse_traffic_data]               (tools/external_tools.py),
      - the commute check of
        [ContextAgent.generate_recommendations] (agents/context_agent.py),
      - the priority of [parse_emails_for_tasks] (tools/email_tools.py),
      - the all-day events of [fetch_calendar_events_api]
                                           (tools/calendar_tools.py),
    and the properties of the schedule-analysis and plan-consolidation
    engine proved about them.

    Conventions of the embedding.
      - A Python [datetime] is its wall-clock reading in microseconds since
        0001-01-01T00:00:00 together with its optional UTC offset
        ([tzinfo], a fixed offset in microseconds).  The representable range
        (years 1..9999) is not modelled: no [OverflowError].
      - A Python [time] is its reading in microseconds since midnight with an
        optional UTC offset in whole minutes.
      - A [timedelta] is a number of microseconds.
      - Comparing or subtracting an offset-naive and an offset-aware value
        raises [TypeError]; fallible code lives in the [result] monad. *)

From Stdlib Require Import ZArith List Bool Lia String Ascii Permutation.
From Stdlib Require Import Sorted DecimalString PrimFloat.
Import ListNotations.
Open Scope Z_scope.

Set Implicit Arguments.

(* ------------------------------------------------------------------ *)
(** * Exceptions *)

Inductive exn : Type :=
| TypeError.

Inductive result (A : Type) : Type :=
| Ok (a : A)
| Raise (e : exn).

Arguments Ok {A} a.
Arguments Raise {A} e.

Definition bind {A B : Type} (m : result A) (k : A -> result B) : result B :=
  match m with
  | Ok a => k a
  | Raise e => Raise e
  end.

Notation "x <- m ;; k" := (bind m (fun x => k))
  (at level 61, m at next level, right associativity).
Notation "' p <- m ;; k" := (bind m (fun p => k))
  (at level 61, p pattern, m at next level, right associativity).

(* ------------------------------------------------------------------ *)
(** * Time values *)

Definition timedelta := Z.

Definition usec_per_minute : Z := 60000000.
Definition usec_per_hour : Z := 60 * usec_per_minute.
Definition usec_per_day : Z := 24 * usec_per_hour.

(** [timedelta(minutes=n)] *)
Definition minutes (n : Z) : timedelta := n * usec_per_minute.

Record date : Type := mkDate {
  year : Z;
  month : Z;
  day : Z
}.

Record datetime : Type := mkDatetime {
  wall : Z;
  tzinfo : option Z
}.

Record time : Type := mkTime {
  tod : Z;
  time_tz : option Z
}.

(** [time(h, m)] *)
Definition time_hm (h m : Z) : time :=
  mkTime (h * usec_per_hour + m * usec_per_minute) None.

(** ** The proleptic Gregorian ordinal of a date ([date.toordinal]) *)

Definition is_leap (y : Z) : bool :=
  (y mod 4 =? 0) && (negb (y mod 100 =? 0) || (y mod 400 =? 0)).

Definition days_before_year (y : Z) : Z :=
  let y' := y - 1 in
  y' * 365 + y' / 4 - y' / 100 + y' / 400.

Definition days_before_month (y m : Z) : Z :=
  nth (Z.to_nat m) [0; 0; 31; 59; 90; 120; 151; 181; 212; 243; 273; 304; 334] 0
  + (if (2 <? m) && is_leap y then 1 else 0).

Definition toordinal (d : date) : Z :=
  days_before_year (year d) + days_before_month (year d) (month d) + day d.

(** [datetime.combine(d, t, tzinfo=tz)] *)
Definition combine (d : date) (t : time) (tz : option Z) : datetime :=
  mkDatetime ((toordinal d - 1) * usec_per_day + tod t) tz.

(** The point on the time line a value is compared by: the UTC instant of an
    aware value, the wall-clock reading of a naive one. *)
Definition instant (d : datetime) : Z :=
  match tzinfo d with
  | Some off => wall d - off
  | None => wall d
  end.

Definition aware (d : datetime) : bool :=
  match tzinfo d with Some _ => true | None => false end.

Definition time_instant (t : time) : Z :=
  match time_tz t with
  | Some off => tod t - off * usec_per_minute
  | None => tod t
  end.

Definition time_aware (t : time) : bool :=
  match time_tz t with Some _ => true | None => false end.

(** [a < b] on datetimes *)
Definition dt_lt (a b : datetime) : result bool :=
  if Bool.eqb (aware a) (aware b) then Ok (instant a <? instant b)
  else Raise TypeError.

(** [a > b] *)
Definition dt_gt (a b : datetime) : result bool := dt_lt b a.

(** [a == b] never raises: a naive and an aware value are unequal. *)
Definition dt_eqb (a b : datetime) : bool :=
  Bool.eqb (aware a) (aware b) && (instant a =? instant b).

(** [max(a, b)]: the first argument unless the second is greater. *)
Definition dt_max (a b : datetime) : result datetime :=
  g <- dt_gt b a ;; Ok (if g then b else a).

(** [min(a, b)]: the first argument unless the second is smaller. *)
Definition dt_min (a b : datetime) : result datetime :=
  l <- dt_lt b a ;; Ok (if l then b else a).

(** [a - b] *)
Definition dt_sub (a b : datetime) : result timedelta :=
  if Bool.eqb (aware a) (aware b) then Ok (instant a - instant b)
  else Raise TypeError.

(** [d + delta] *)
Definition dt_add (d : datetime) (delta : timedelta) : datetime :=
  mkDatetime (wall d + delta) (tzinfo d).

(** [d.astimezone(tz)]: same instant, read on the clock of offset [tz].
    Only called on aware values. *)
Definition astimezone (d : datetime) (tz : Z) : datetime :=
  mkDatetime (instant d + tz) (Some tz).

(** [d.replace(tzinfo=tz)]: same reading, offset attached. *)
Definition replace_tzinfo (d : datetime) (tz : Z) : datetime :=
  mkDatetime (wall d) (Some tz).

(** [d.time()]: the naive time of day. *)
Definition dt_time (d : datetime) : time :=
  mkTime (wall d mod usec_per_day) None.

(** [a < b] on times *)
Definition time_lt (a b : time) : result bool :=
  if Bool.eqb (time_aware a) (time_aware b)
  then Ok (time_instant a <? time_instant b)
  else Raise TypeError.

(** [a < b] on ints *)
Definition int_lt (a b : Z) : result bool := Ok (a <? b).

(* ------------------------------------------------------------------ *)
(** * Sorting

    [list.sort(key=...)] and [sorted(..., key=...)] are stable and compare
    keys with [<]; an exception raised by a comparison propagates.  Stable
    insertion sort has the same result, and raises exactly when the list
    holds two keys that cannot be compared (every comparison sort compares
    some naive key with some aware key on such a list). *)

Section Sorting.
Variables (A K : Type).
Variable lt : K -> K -> result bool.
Variable key : A -> K.

Fixpoint insert (x : A) (l : list A) : result (list A) :=
  match l with
  | [] => Ok [x]
  | y :: l' =>
      b <- lt (key y) (key x) ;;
      if b then (r <- insert x l' ;; Ok (y :: r))
      else Ok (x :: y :: l')
  end.

Fixpoint sorted (l : list A) : result (list A) :=
  match l with
  | [] => Ok []
  | x :: l' => s <- sorted l' ;; insert x s
  end.
End Sorting.

(* ------------------------------------------------------------------ *)
(** * Text rendering *)

Definition str_of_nat (n : nat) : string :=
  NilEmpty.string_of_uint (Nat.to_uint n).

(** Decimal rendering of a non-negative integer, zero-padded to [w] digits
    ([%02d], [%04d]). *)
Definition zero_pad (w : nat) (n : Z) : string :=
  let s := str_of_nat (Z.to_nat n) in
  (string_of_list_ascii (repeat "0"%char (w - String.length s)) ++ s)%string.

(** [d.strftime('%H:%M')] *)
Definition strftime_HM (d : datetime) : string :=
  let t := wall d mod usec_per_day in
  (zero_pad 2 (t / usec_per_hour) ++ ":"
   ++ zero_pad 2 ((t mod usec_per_hour) / usec_per_minute))%string.

(** [d.strftime('%Y-%m-%d')] *)
Definition strftime_Ymd (d : date) : string :=
  (zero_pad 4 (year d) ++ "-" ++ zero_pad 2 (month d) ++ "-"
   ++ zero_pad 2 (day d))%string.

(* ------------------------------------------------------------------ *)
(** * Models (models/schemas.py) *)

Record CalendarEvent : Type := mkCalendarEvent {
  start_time : datetime;
  end_time : datetime;
  summary : string;
  location : option string
}.

Record FreeTimeSlot : Type := mkFreeTimeSlot {
  fs_start_time : datetime;
  fs_end_time : datetime;
  duration_minutes : Z
}.

Record CalendarConflict : Type := mkCalendarConflict {
  conflicting_events : list CalendarEvent;
  details : string
}.

Record CalendarSummaryOutput : Type := mkCalendarSummaryOutput {
  summary_date : date;
  events : list CalendarEvent;
  free_slots : list FreeTimeSlot;
  conflicts : list CalendarConflict
}.

Inductive Priority : Type := low | medium | high | urgent.

Record EmailTask : Type := mkEmailTask {
  description : string;
  priority : Priority;
  due_date : option date;
  source_email_id : option string
}.

Record PrioritizedTaskListOutput : Type := mkPrioritizedTaskListOutput {
  tasks : list EmailTask
}.

Record WeatherInfo : Type := mkWeatherInfo {
  weather_time : option time;
  weather_description : string;
  temperature_celsius : option float;
  weather_location : option string
}.

Inductive TrafficCondition : Type := light | moderate | heavy | severe.

Record TrafficInfo : Type := mkTrafficInfo {
  route_description : option string;
  delay_minutes : option Z;
  condition : TrafficCondition;
  recommendation : option string
}.

Inductive RecommendationType : Type := weather | traffic | general.

Inductive RecommendationDetails : Type :=
| DetailsWeather (w : WeatherInfo)
| DetailsTraffic (t : TrafficInfo)
| DetailsText (s : string).

Record ContextRecommendation : Type := mkContextRecommendation {
  rec_type : RecommendationType;
  rec_details : RecommendationDetails;
  impact_time : option datetime
}.

Record ContextOutput : Type := mkContextOutput {
  recommendations : list ContextRecommendation
}.

Inductive ItemType : Type := event | task | recommendation_item.

Inductive PlanDetails : Type :=
| OfEvent (e : CalendarEvent)
| OfTask (t : EmailTask)
| OfRecommendation (r : ContextRecommendation)
| OfText (s : string).

Record PlanItem : Type := mkPlanItem {
  item_time : time;
  item_type : ItemType;
  item_details : PlanDetails;
  item_priority : option Priority
}.

Record ConsolidatedDailyPlanOutput : Type := mkConsolidatedDailyPlanOutput {
  plan_date : date;
  plan : list PlanItem;
  plan_summary : option string
}.

(** The validator [sort_plan_by_time] of [ConsolidatedDailyPlanOutput]:
    [sorted(v, key=lambda item: item.time)]. *)
Definition sort_plan_by_time (v : list PlanItem) : result (list PlanItem) :=
  sorted time_lt item_time v.

(** Construction of a [ConsolidatedDailyPlanOutput]: the validator runs on
    the [plan] field. *)
Definition new_ConsolidatedDailyPlanOutput
    (d : date) (items : list PlanItem) (s : option string)
  : result ConsolidatedDailyPlanOutput :=
  v <- sort_plan_by_time items ;;
  Ok (mkConsolidatedDailyPlanOutput d v s).

(** Equality of two events as models: field by field, with [==]. *)
Definition option_eqb {A : Type} (eqb : A -> A -> bool) (a b : option A) : bool :=
  match a, b with
  | Some x, Some y => eqb x y
  | None, None => true
  | _, _ => false
  end.

Definition event_eqb (a b : CalendarEvent) : bool :=
  dt_eqb (start_time a) (start_time b)
  && dt_eqb (end_time a) (end_time b)
  && String.eqb (summary a) (summary b)
  && option_eqb String.eqb (location a) (location b).

(** [e in l] *)
Definition event_in (e : CalendarEvent) (l : list CalendarEvent) : bool :=
  existsb (event_eqb e) l.

(* ------------------------------------------------------------------ *)
(** * CalendarAgent.analyze_schedule (agents/calendar_agent.py) *)

(** Working hours and the minimum free slot duration. *)
Definition work_start : time := time_hm 9 0.
Definition work_end : time := time_hm 17 0.
Definition min_free_duration : timedelta := minutes 15.

(** [events.sort(key=lambda x: x.start_time)] *)
Definition sort_events (l : list CalendarEvent) : result (list CalendarEvent) :=
  sorted dt_lt start_time l.

(** [events[0].start_time.tzinfo if events and events[0].start_time.tzinfo
    else None] *)
Definition first_tzinfo (l : list CalendarEvent) : option Z :=
  match l with
  | e :: _ => tzinfo (start_time e)
  | [] => None
  end.

(** Lines 91-96: a timestamp of an event brought to the zone of the working
    day: [astimezone] for an aware timestamp, [replace] for a naive one, the
    timestamp itself when the day is naive. *)
Definition to_day_zone (tz_info : option Z) (d : datetime) : datetime :=
  match tz_info with
  | Some tz =>
      match tzinfo d with
      | Some _ => astimezone d tz
      | None => replace_tzinfo d tz
      end
  | None => d
  end.

Definition event_start_aware (tz_info : option Z) (e : CalendarEvent) : datetime :=
  to_day_zone tz_info (start_time e).

Definition event_end_aware (tz_info : option Z) (e : CalendarEvent) : datetime :=
  to_day_zone tz_info (end_time e).

(** [int(free_duration.total_seconds() / 60)]: [int] truncates towards zero.
    The two float divisions are exact enough on every duration the loop can
    produce (at most the eight working hours, in whole microseconds): a
    quotient that is not a whole number of minutes is at least 1/60000000
    away from one, the rounding error is below 1e-12. *)
Definition whole_minutes (free_duration : timedelta) : Z :=
  Z.quot free_duration usec_per_minute.

Definition new_free_slot (from to : datetime) (free_duration : timedelta)
  : FreeTimeSlot :=
  mkFreeTimeSlot from to (whole_minutes free_duration).

(** [timedelta >= timedelta(minutes=15)] and the append of lines 107-112 and
    118-123. *)
Definition emit_slot (free_slots : list FreeTimeSlot) (from to : datetime)
  : result (list FreeTimeSlot) :=
  free_duration <- dt_sub to from ;;
  Ok (if min_free_duration <=? free_duration
      then free_slots ++ [new_free_slot from to free_duration]
      else free_slots).

(** One iteration of the free-slot loop (lines 89-113) on the state
    [(current_time, free_slots)]. *)
Definition free_slot_step (tz_info : option Z) (day_start_time day_end_time : datetime)
    (st : datetime * list FreeTimeSlot) (e : CalendarEvent)
  : result (datetime * list FreeTimeSlot) :=
  let '(current_time, free_slots) := st in
  event_start_clamped <- dt_max (event_start_aware tz_info e) day_start_time ;;
  event_end_clamped <- dt_min (event_end_aware tz_info e) day_end_time ;;
  inside <- dt_lt event_start_clamped event_end_clamped ;;
  if inside then
    after <- dt_gt event_start_clamped current_time ;;
    free_slots' <- (if after
                    then emit_slot free_slots current_time event_start_clamped
                    else Ok free_slots) ;;
    current_time' <- dt_max current_time event_end_clamped ;;
    Ok (current_time', free_slots')
  else Ok st.

Fixpoint free_slot_loop (tz_info : option Z) (day_start_time day_end_time : datetime)
    (l : list CalendarEvent) (st : datetime * list FreeTimeSlot)
  : result (datetime * list FreeTimeSlot) :=
  match l with
  | [] => Ok st
  | e :: l' =>
      st' <- free_slot_step tz_info day_start_time day_end_time st e ;;
      free_slot_loop tz_info day_start_time day_end_time l' st'
  end.

(** Lines 116-123: the slot after the last event. *)
Definition trailing_slot (day_end_time : datetime)
    (st : datetime * list FreeTimeSlot) : result (list FreeTimeSlot) :=
  let '(current_time, free_slots) := st in
  after <- dt_gt day_end_time current_time ;;
  if after then emit_slot free_slots current_time day_end_time
  else Ok free_slots.

(** [max(event1.start_time, event2.start_time)
     < min(event1.end_time, event2.end_time)] *)
Definition overlap (event1 event2 : CalendarEvent) : result bool :=
  latest_start <- dt_max (start_time event1) (start_time event2) ;;
  earliest_end <- dt_min (end_time event1) (end_time event2) ;;
  dt_lt latest_start earliest_end.

Definition conflict_details (event1 event2 : CalendarEvent) : string :=
  ("Overlap between '" ++ summary event1 ++ "' ("
   ++ strftime_HM (start_time event1) ++ "-" ++ strftime_HM (end_time event1)
   ++ ") and '" ++ summary event2 ++ "' ("
   ++ strftime_HM (start_time event2) ++ "-" ++ strftime_HM (end_time event2)
   ++ ")")%string.

(** Lines 132-138: is there a conflict that holds both events? *)
Definition conflict_exists (cs : list CalendarConflict)
    (event1 event2 : CalendarEvent) : bool :=
  existsb (fun existing_conflict =>
             event_in event1 (conflicting_events existing_conflict)
             && event_in event2 (conflicting_events existing_conflict)) cs.

(** The inner loop [for j in range(i + 1, len(events))]: [event1] against
    the events after it. *)
Fixpoint conflicts_inner (event1 : CalendarEvent) (rest : list CalendarEvent)
    (cs : list CalendarConflict) : result (list CalendarConflict) :=
  match rest with
  | [] => Ok cs
  | event2 :: rest' =>
      o <- overlap event1 event2 ;;
      conflicts_inner event1 rest'
        (if o && negb (conflict_exists cs event1 event2)
         then cs ++ [mkCalendarConflict [event1; event2]
                       (conflict_details event1 event2)]
         else cs)
  end.

(** The outer loop [for i in range(len(events))]. *)
Fixpoint conflicts_outer (l : list CalendarEvent) (cs : list CalendarConflict)
  : result (list CalendarConflict) :=
  match l with
  | [] => Ok cs
  | event1 :: rest =>
      cs' <- conflicts_inner event1 rest cs ;;
      conflicts_outer rest cs'
  end.

Definition analyze_schedule (target_date : date) (l : list CalendarEvent)
  : result CalendarSummaryOutput :=
  events <- sort_events l ;;
  let tz_info := first_tzinfo events in
  let day_start_time := combine target_date work_start tz_info in
  let day_end_time := combine target_date work_end tz_info in
  st <- free_slot_loop tz_info day_start_time day_end_time events
          (day_start_time, []) ;;
  free_slots <- trailing_slot day_end_time st ;;
  conflicts <- conflicts_outer events [] ;;
  Ok (mkCalendarSummaryOutput target_date events free_slots conflicts).

(* ------------------------------------------------------------------ *)
(** * combine_agent_outputs (main.py) *)

(** The literal a priority is stored as. *)
Definition priority_value (p : Priority) : string :=
  match p with
  | low => "low"
  | medium => "medium"
  | high => "high"
  | urgent => "urgent"
  end.

(** [priority_order = {'urgent': 0, 'high': 1, 'medium': 2, 'low': 3}] *)
Definition priority_order : list (string * Z) :=
  [("urgent"%string, 0); ("high"%string, 1); ("medium"%string, 2);
   ("low"%string, 3)].

(** [d.get(k, default)] *)
Fixpoint dict_get (d : list (string * Z)) (k : string) (default : Z) : Z :=
  match d with
  | [] => default
  | (k', v) :: d' => if String.eqb k' k then v else dict_get d' k default
  end.

(** The sort key [lambda t: priority_order.get(t.priority, 99)] *)
Definition priority_key (t : EmailTask) : Z :=
  dict_get priority_order (priority_value (priority t)) 99.

(** [task_times = [time(9, 0), time(11, 0), time(14, 0), time(16, 0)]] *)
Definition task_times : list time :=
  [time_hm 9 0; time_hm 11 0; time_hm 14 0; time_hm 16 0].

(** Lines 79-81: the placeholder time of the task of index [time_idx];
    [today] stands for [date.today()]. *)
Definition assigned_time (today : date) (time_idx : nat) : time :=
  let slot := nth (time_idx mod List.length task_times) task_times (time_hm 0 0) in
  dt_time (dt_add (combine today slot None) (minutes (Z.of_nat time_idx))).

(** Lines 51-62: one plan item per calendar event. *)
Definition event_items (l : list CalendarEvent) : list PlanItem :=
  map (fun e => mkPlanItem (dt_time (start_time e)) event (OfEvent e) None) l.

(** Lines 77-89: the loop over the sorted tasks, [time_idx] counting up. *)
Fixpoint task_items (today : date) (time_idx : nat) (l : list EmailTask)
  : list PlanItem :=
  match l with
  | [] => []
  | t :: l' =>
      mkPlanItem (assigned_time today time_idx) task (OfTask t)
                 (Some (priority t))
      :: task_items today (S time_idx) l'
  end.

(** Lines 94-104: one plan item per recommendation. *)
Definition recommendation_items (l : list ContextRecommendation) : list PlanItem :=
  map (fun r =>
         mkPlanItem (match impact_time r with
                     | Some t => dt_time t
                     | None => time_hm 7 0
                     end)
                    recommendation_item (OfRecommendation r) None) l.

(** [len(x.field) if x else 0] *)
Definition len_or_zero {A B : Type} (field : A -> list B) (x : option A) : nat :=
  match x with
  | Some a => List.length (field a)
  | None => 0%nat
  end.

Definition plan_summary_text (target_date : date)
    (calendar_summary : option CalendarSummaryOutput)
    (task_list : option PrioritizedTaskListOutput)
    (context_info : option ContextOutput) : string :=
  ("Plan for " ++ strftime_Ymd target_date ++ ". "
   ++ "Events: " ++ str_of_nat (len_or_zero events calendar_summary) ++ ". "
   ++ "Tasks: " ++ str_of_nat (len_or_zero tasks task_list) ++ ". "
   ++ "Recommendations: "
   ++ str_of_nat (len_or_zero recommendations context_info) ++ ".")%string.

(** The items appended to [plan_items] before the sort of line 108. *)
Definition collected_items (today : date)
    (calendar_summary : option CalendarSummaryOutput)
    (task_list : option PrioritizedTaskListOutput)
    (context_info : option ContextOutput) : result (list PlanItem) :=
  let from_events :=
    match calendar_summary with
    | Some c => event_items (events c)
    | None => []
    end in
  from_tasks <-
    match task_list with
    | Some tl =>
        sorted_tasks <- sorted int_lt priority_key (tasks tl) ;;
        Ok (task_items today 0 sorted_tasks)
    | None => Ok []
    end ;;
  let from_recommendations :=
    match context_info with
    | Some c => recommendation_items (recommendations c)
    | None => []
    end in
  Ok (from_events ++ from_tasks ++ from_recommendations).

Definition combine_agent_outputs (today : date) (target_date : date)
    (calendar_summary : option CalendarSummaryOutput)
    (task_list : option PrioritizedTaskListOutput)
    (context_info : option ContextOutput)
  : result ConsolidatedDailyPlanOutput :=
  plan_items <- collected_items today calendar_summary task_list context_info ;;
  plan_items <- sorted time_lt item_time plan_items ;;
  new_ConsolidatedDailyPlanOutput target_date plan_items
    (Some (plan_summary_text target_date calendar_summary task_list context_info)).

(* ------------------------------------------------------------------ *)
(** * Specification vocabulary *)

(** ** Stable sorting by an integer key, without exceptions *)

Section StableSort.
Variable A : Type.
Variable k : A -> Z.

Fixpoint stable_insert (x : A) (l : list A) : list A :=
  match l with
  | [] => [x]
  | y :: l' => if k y <? k x then y :: stable_insert x l' else x :: y :: l'
  end.

Fixpoint stable_sort (l : list A) : list A :=
  match l with
  | [] => []
  | x :: l' => stable_insert x (stable_sort l')
  end.

(** Ascending by key. *)
Definition ascending (l : list A) : Prop :=
  StronglySorted (fun a b => k a <= k b) l.

(** The elements of key [v], in their order in the list. *)
Definition with_key (v : Z) (l : list A) : list A :=
  filter (fun x => k x =? v) l.
End StableSort.

(** ** Intervals of the working day *)

Definition window_start (d : date) (tz_info : option Z) : Z :=
  instant (combine d work_start tz_info).

Definition window_end (d : date) (tz_info : option Z) : Z :=
  instant (combine d work_end tz_info).

(** The interval of an event after clamping to the working hours (lines
    100-101), as instants; it is empty when [clamped_end <= clamped_start]. *)
Definition clamped_start (d : date) (tz_info : option Z) (e : CalendarEvent) : Z :=
  Z.max (instant (event_start_aware tz_info e)) (window_start d tz_info).

Definition clamped_end (d : date) (tz_info : option Z) (e : CalendarEvent) : Z :=
  Z.min (instant (event_end_aware tz_info e)) (window_end d tz_info).

Definition in_event (d : date) (tz_info : option Z) (t : Z) (e : CalendarEvent) : Prop :=
  clamped_start d tz_info e <= t < clamped_end d tz_info e.

Definition slot_start (f : FreeTimeSlot) : Z := instant (fs_start_time f).
Definition slot_end (f : FreeTimeSlot) : Z := instant (fs_end_time f).

Definition in_slot (t : Z) (f : FreeTimeSlot) : Prop :=
  slot_start f <= t < slot_end f.

(** Two events overlap: [max(A.start, B.start) < min(A.end, B.end)]. *)
Definition overlaps (a b : CalendarEvent) : Prop :=
  Z.max (instant (start_time a)) (instant (start_time b))
  < Z.min (instant (end_time a)) (instant (end_time b)).




(** Every event of [c2] occurs in [c1]: the two conflicts report the same
    pair. *)
Definition same_pair (c1 c2 : CalendarConflict) : bool :=
  forallb (fun e => event_in e (conflicting_events c1)) (conflicting_events c2).

(** ** What the free slots of a day must satisfy *)

(** A free slot lies in the working hours, lasts at least the minimum
    duration, records its length in whole minutes, rounded down, and its two
    ends can be subtracted. *)
Definition slot_ok (d : date) (tz_info : option Z) (f : FreeTimeSlot) : Prop :=
  window_start d tz_info <= slot_start f
  /\ slot_end f <= window_end d tz_info
  /\ min_free_duration <= slot_end f - slot_start f
  /\ duration_minutes f = (slot_end f - slot_start f) / usec_per_minute
  /\ aware (fs_end_time f) = aware (fs_start_time f).

(** No event of [es] meets [[a, b)]. *)
Definition event_free (d : date) (tz_info : option Z) (es : list CalendarEvent)
    (a b : Z) : Prop :=
  forall u e, a <= u < b -> In e es -> ~ in_event d tz_info u e.

(** [e] is the clamped interval of an event of [es] that is not empty. *)
Definition busy (d : date) (tz_info : option Z) (es : list CalendarEvent)
    (e : CalendarEvent) : Prop :=
  In e es /\ clamped_start d tz_info e < clamped_end d tz_info e.

(** [t] lies in a gap between busy intervals (or the ends of the working
    hours) that is shorter than the minimum duration. *)
Definition in_short_gap (d : date) (tz_info : option Z) (es : list CalendarEvent)
    (t : Z) : Prop :=
  exists a b,
    a <= t < b
    /\ b - a < min_free_duration
    /\ event_free d tz_info es a b
    /\ (a = window_start d tz_info
        \/ exists e, busy d tz_info es e /\ a = clamped_end d tz_info e)
    /\ (b = window_end d tz_info
        \/ exists e, busy d tz_info es e /\ b = clamped_start d tz_info e).

(** [t] is in an event, in a free slot, or in a short gap. *)
Definition accounted (d : date) (tz_info : option Z) (es : list CalendarEvent)
    (fs : list FreeTimeSlot) (t : Z) : Prop :=
  Exists (in_event d tz_info t) es
  \/ Exists (in_slot t) fs
  \/ in_short_gap d tz_info es t.

(** Free slots in time order, one ending before the next starts. *)
Definition slots_in_order (fs : list FreeTimeSlot) : Prop :=
  StronglySorted (fun f g => slot_end f <= slot_start g) fs.

(** The invariant of the free-slot loop: [es] are the events of the day,
    [done] the ones already visited, [c] the instant of [current_time]. *)
Definition free_inv (d : date) (tz_info : option Z) (es done : list CalendarEvent)
    (c : Z) (fs : list FreeTimeSlot) : Prop :=
  window_start d tz_info <= c <= window_end d tz_info
  /\ (c = window_start d tz_info
      \/ exists e, busy d tz_info es e /\ c = clamped_end d tz_info e)
  /\ Forall (fun e => clamped_start d tz_info e < clamped_end d tz_info e ->
                      clamped_end d tz_info e <= c) done
  /\ slots_in_order fs
  /\ Forall (slot_ok d tz_info) fs
  /\ Forall (fun f => slot_end f <= c) fs
  /\ (forall f e t, In f fs -> In e es -> in_slot t f -> ~ in_event d tz_info t e)
  /\ (forall t, window_start d tz_info <= t < c -> accounted d tz_info es fs t).

(** The clamped events and the free slots, as intervals. *)
Definition pieces (d : date) (s : CalendarSummaryOutput) : list (Z * Z) :=
  let tz_info := first_tzinfo (events s) in
  map (fun e => (clamped_start d tz_info e, clamped_end d tz_info e)) (events s)
  ++ map (fun f => (slot_start f, slot_end f)) (free_slots s).

(** How many of the intervals hold [t]. *)
Definition cover_count (t : Z) (l : list (Z * Z)) : nat :=
  List.length (filter (fun p => (fst p <=? t) && (t <? snd p)) l).

(** The free slots are pairwise disjoint, none is shorter than the minimum
    duration, and slots and clamped events cover the working hours exactly:
    every instant lies in one piece (no gap) and in one only (no overlap). *)
Definition partitions_working_hours (d : date) (s : CalendarSummaryOutput) : Prop :=
  let tz_info := first_tzinfo (events s) in
  ForallOrdPairs (fun f g => slot_end f <= slot_start g \/ slot_end g <= slot_start f)
                 (free_slots s)
  /\ Forall (fun f => min_free_duration <= slot_end f - slot_start f) (free_slots s)
  /\ forall t, window_start d tz_info <= t < window_end d tz_info ->
               cover_count t (pieces d s) = 1%nat.

(** ** The daily plan *)

(** The items of an input that may be absent. *)
Definition present {A B : Type} (field : A -> list B) (x : option A) : list B :=
  match x with
  | Some a => field a
  | None => []
  end.

(** The instant a plan item is ordered by. *)
Definition plan_key (i : PlanItem) : Z := time_instant (item_time i).

Definition item_type_eqb (a b : ItemType) : bool :=
  match a, b with
  | event, event => true
  | task, task => true
  | recommendation_item, recommendation_item => true
  | _, _ => false
  end.

(** How many items of a kind a plan holds. *)
Definition count_items (k : ItemType) (l : list PlanItem) : nat :=
  List.length (filter (fun i => item_type_eqb (item_type i) k) l).

(** ** Sample data *)

(** [n] tasks of medium priority, told apart by their number. *)
Definition numbered_task (i : nat) : EmailTask :=
  mkEmailTask (str_of_nat i) medium None None.

Definition numbered_tasks (n : nat) : list EmailTask :=
  map numbered_task (seq 0 n).


Definition sample_day : date := mkDate 2024 1 1.

Definition at_time (h m : Z) (tz : option Z) : datetime :=
  combine sample_day (time_hm h m) tz.

Definition meeting (title : string) (h1 m1 h2 m2 : Z) (tz : option Z)
  : CalendarEvent :=
  mkCalendarEvent (at_time h1 m1 tz) (at_time h2 m2 tz) title None.

(** UTC offsets, in microseconds. *)
Definition utc : Z := 0.
Definition utc_plus (h : Z) : Z := h * usec_per_hour.

(** ** More vocabulary for the analysis *)

(** The free minutes of a day, as the slots record them. *)
Definition total_free_minutes (fs : list FreeTimeSlot) : Z :=
  fold_right (fun f acc => duration_minutes f + acc) 0 fs.

(** The lengths of the slots, in microseconds. *)
Definition total_slot_length (fs : list FreeTimeSlot) : Z :=
  fold_right (fun f acc => (slot_end f - slot_start f) + acc) 0 fs.


(** The event fills the working hours. *)
Definition fills_working_hours (d : date) (tz_info : option Z) (e : CalendarEvent)
  : Prop :=
  clamped_start d tz_info e = window_start d tz_info
  /\ clamped_end d tz_info e = window_end d tz_info.

(** The free slot that spans the working hours. *)
Definition whole_day_slot (d : date) (tz_info : option Z) : FreeTimeSlot :=
  mkFreeTimeSlot (combine d work_start tz_info) (combine d work_end tz_info) 480.

(* ------------------------------------------------------------------ *)
(** * Text search *)

(** [needle in hay] on strings: [needle] occurs in [hay]. *)
Fixpoint contains (needle hay : string) : bool :=
  if String.prefix needle hay then true
  else match hay with
       | EmptyString => false
       | String _ hay' => contains needle hay'
       end.

(** [needle] occurs in [hay]: [hay] is some text, [needle], some text. *)
Definition occurs_in (needle hay : string) : Prop :=
  exists a b, hay = (a ++ needle ++ b)%string.

(** No space in the text. *)
Fixpoint spaceless (k : string) : bool :=
  match k with
  | EmptyString => true
  | String c k' => negb (Ascii.eqb c " ") && spaceless k'
  end.

(** The truth value of an optional string: [None] and [''] are false. *)
Definition str_truthy (o : option string) : bool :=
  match o with
  | Some s => negb (String.eqb s "")
  | None => false
  end.

(** [str(n)] for an int. *)
Definition str_of_int (n : Z) : string :=
  if n <? 0 then ("-" ++ str_of_nat (Z.to_nat (- n)))%string
  else str_of_nat (Z.to_nat n).

(* ------------------------------------------------------------------ *)
(** * parse_traffic_data (tools/external_tools.py) *)

(** The answer of the Directions API as far as the parser reads it: the
    status, the routes, the legs of a route, and for a leg the ["value"] of
    its ["duration"] and ["duration_in_traffic"], in whole seconds.  A key
    that is missing and a list that is empty are both the empty list; a
    duration that is missing, or has no ["value"], is [None]. *)
Record Leg : Type := mkLeg {
  leg_duration : option Z;
  leg_duration_in_traffic : option Z
}.

Record Route : Type := mkRoute {
  legs : list Leg
}.

Record Directions : Type := mkDirections {
  status : option string;
  routes : list Route
}.

(** An answer with one route of one leg. *)
Definition one_leg_answer (lg : Leg) : Directions :=
  mkDirections (Some "OK"%string) [mkRoute [lg]].

(** [round(n / m)] for ints [n] and [m > 0]: to the nearest integer, a half
    to the even one.  The float quotient of the source is exact on a half
    and off by far less than the distance to a half elsewhere, for every
    number of seconds a route can take. *)
Definition round_div (n m : Z) : Z :=
  let q := n / m in
  let r := n mod m in
  if 2 * r <? m then q
  else if m <? 2 * r then q + 1
  else if Z.even q then q else q + 1.

(** Lines 176-195: delay, condition and advice from the two durations. *)
Definition traffic_assessment (duration_sec duration_in_traffic_sec : option Z)
  : option Z * TrafficCondition * option string :=
  match duration_sec, duration_in_traffic_sec with
  | Some free, Some busy_ =>
      let delay_seconds := busy_ - free in
      let delay_minutes := Z.max 0 (round_div delay_seconds 60) in
      if 30 <? delay_minutes then
        (Some delay_minutes, severe,
         Some ("Significant delay (" ++ str_of_int delay_minutes
               ++ " min). Consider alternative routes or times.")%string)
      else if 15 <? delay_minutes then
        (Some delay_minutes, heavy,
         Some ("Heavy traffic (" ++ str_of_int delay_minutes
               ++ " min delay). Leave earlier.")%string)
      else if 5 <? delay_minutes then
        (Some delay_minutes, moderate,
         Some ("Moderate traffic (" ++ str_of_int delay_minutes
               ++ " min delay).")%string)
      else
        (Some delay_minutes, light, Some "Traffic conditions seem normal."%string)
  | _, _ => (None, light, Some "Could not determine traffic delay."%string)
  end.

(** [None] for an answer without a usable route: a status other than "OK",
    no route (line 160), or a first route without legs ([IndexError],
    line 204). *)
Definition parse_traffic_data (directions_data : Directions)
    (origin destination : string) : option TrafficInfo :=
  match status directions_data with
  | Some st =>
      if String.eqb st "OK" then
        match routes directions_data with
        | [] => None
        | route :: _ =>
            match legs route with
            | [] => None
            | leg :: _ =>
                let '(delay_minutes, condition, recommendation) :=
                  traffic_assessment (leg_duration leg)
                                     (leg_duration_in_traffic leg) in
                Some (mkTrafficInfo
                        (Some (origin ++ " to " ++ destination)%string)
                        delay_minutes condition recommendation)
            end
        end
      else None
  | None => None
  end.

(* ------------------------------------------------------------------ *)
(** * ContextAgent.generate_recommendations (agents/context_agent.py) *)

Definition DEFAULT_HOME_LOCATION : string := "40.7128,-74.0060".
Definition DEFAULT_WORK_LOCATION : string := "40.7580,-73.9855".

(** [d.hour] *)
Definition dt_hour (d : datetime) : Z :=
  (wall d mod usec_per_day) / usec_per_hour.

(** Line 130: a morning event with a location. *)
Definition morning_with_location (e : CalendarEvent) : bool :=
  (8 <=? dt_hour (start_time e)) && (dt_hour (start_time e) <? 12)
  && str_truthy (location e).

(** Lines 133-143: where the commute goes. *)
Definition commute_destination (e : CalendarEvent) : string :=
  match location e with
  | Some loc => if contains "," loc then loc else DEFAULT_WORK_LOCATION
  | None => DEFAULT_WORK_LOCATION
  end.

(** The loop of lines 127-143 over the sorted events: the first morning
    event with a location, as [(first_event_location, first_event_time)]. *)
Fixpoint first_commute (sorted_events : list CalendarEvent)
  : option (string * datetime) :=
  match sorted_events with
  | [] => None
  | e :: rest =>
      if morning_with_location e
      then Some (commute_destination e, start_time e)
      else first_commute rest
  end.

(** Lines 122-143.  The sort of line 126 is outside every [try]. *)
Definition commute_target (calendar_summary : option CalendarSummaryOutput)
  : result (option (string * datetime)) :=
  match calendar_summary with
  | Some c =>
      match events c with
      | [] => Ok None
      | _ :: _ =>
          sorted_events <- sorted dt_lt start_time (events c) ;;
          Ok (first_commute sorted_events)
      end
  | None => Ok None
  end.

(** Line 156: is the traffic worth a recommendation?  [None > 5] raises. *)
Definition notable_traffic (traffic_info : TrafficInfo) : result bool :=
  match condition traffic_info with
  | moderate | heavy | severe => Ok true
  | light =>
      match delay_minutes traffic_info with
      | Some m => Ok (5 <? m)
      | None => Raise TypeError
      end
  end.

(** Line 160: when to leave. *)
Definition commute_impact_time (first_event_time : datetime)
    (traffic_info : TrafficInfo) : datetime :=
  match delay_minutes traffic_info with
  | Some m =>
      if m =? 0 then dt_add first_event_time (- minutes 60)
      else dt_add first_event_time (- minutes (m + 30))
  | None => dt_add first_event_time (- minutes 60)
  end.

(** Lines 154-168 for a [TrafficInfo] that was received: the recommendation
    that is appended, if any.  An exception is logged and skipped (line
    167). *)
Definition commute_recommendation (first_event_time : datetime)
    (traffic_info : TrafficInfo) : option ContextRecommendation :=
  match notable_traffic traffic_info with
  | Ok true =>
      Some (mkContextRecommendation traffic (DetailsTraffic traffic_info)
              (Some (commute_impact_time first_event_time traffic_info)))
  | Ok false => None
  | Raise _ => None
  end.

(* ------------------------------------------------------------------ *)
(** * parse_emails_for_tasks: the priority (tools/email_tools.py) *)

(** The keywords of a level (lines 58-63). *)
Definition keywords_of (p : Priority) : list string :=
  match p with
  | urgent => ["urgent"; "asap"; "immediately"; "critical"]%string
  | high => ["important"; "priority"; "deadline"; "due soon"]%string
  | medium => ["task"; "action required"; "follow up"; "please review"]%string
  | low => ["fyi"; "update"; "info"; "suggestion"]%string
  end.

(** [priority_keywords.items()], in the order of the dict. *)
Definition priority_keywords : list (Priority * list string) :=
  map (fun p => (p, keywords_of p)) [urgent; high; medium; low].

(** Line 73: [subject + " " + body], both lowercased by the caller. *)
Definition email_content (subject body : string) : string :=
  (subject ++ " " ++ body)%string.

(** [any(keyword in content for keyword in keywords)] *)
Definition any_keyword (keywords : list string) (content : string) : bool :=
  existsb (fun keyword => contains keyword content) keywords.

(** Lines 80-83: the first level one of whose keywords occurs. *)
Fixpoint first_level (levels : list (Priority * list string)) (content : string)
  : option Priority :=
  match levels with
  | [] => None
  | (p_level, keywords) :: rest =>
      if any_keyword keywords content then Some p_level
      else first_level rest content
  end.

(** Lines 79-85, for the lowercased [content] of an email. *)
Definition email_priority (content : string) : Priority :=
  match first_level priority_keywords content with
  | Some p => p
  | None => medium
  end.

(** Some keyword of the list occurs in the content. *)
Definition mentions (keywords : list string) (content : string) : Prop :=
  exists keyword, In keyword keywords /\ occurs_in keyword content.

(* ------------------------------------------------------------------ *)
(** * All-day events (tools/calendar_tools.py, lines 144-153) *)

(** [datetime.time.min] and [datetime.time.max] *)
Definition time_min : time := mkTime 0 None.
Definition time_max : time := mkTime (usec_per_day - 1) None.

(** An event given by dates only: from midnight of the first day to the
    last microsecond of the last. *)
Definition all_day_event (first_day last_day : date) (title : string)
    (where_ : option string) : CalendarEvent :=
  mkCalendarEvent (combine first_day time_min None)
                  (combine last_day time_max None) title where_.

(* ------------------------------------------------------------------ *)
(** * CalendarAgent.invoke and run_planner *)

(** What a call that may raise came to. *)
Inductive outcome (A : Type) : Type :=
| Returned (a : A)
| Failed.

Arguments Returned {A} a.
Arguments Failed {A}.

(** The ["date_str"] of the input: missing or empty, not a date, a date. *)
Inductive date_arg : Type :=
| NoDate
| BadDate
| GoodDate (d : date).

(** What [json.loads] makes of the answer of the tool: an object with an
    ["error"] key, a list (each entry with the event that [CalendarEvent]
    builds from it, [None] when the entry is rejected), any other JSON
    value, or no JSON at all. *)
Inductive tool_reply : Type :=
| ReplyError
| ReplyEntries (entries : list (option CalendarEvent))
| ReplyOther
| ReplyNotJson.

Definition empty_summary (d : date) : CalendarSummaryOutput :=
  mkCalendarSummaryOutput d [] [] [].

(** Lines 198-208: the entries that build an event, in order. *)
Fixpoint parsed_events (entries : list (option CalendarEvent))
  : list CalendarEvent :=
  match entries with
  | [] => []
  | Some e :: rest => e :: parsed_events rest
  | None :: rest => parsed_events rest
  end.

(** Lines 212-229: the analysis, and the empty summary when it raises. *)
Definition analysis_or_empty (target_date : date) (l : list CalendarEvent)
  : CalendarSummaryOutput :=
  match analyze_schedule target_date l with
  | Ok summary => summary
  | Raise _ => empty_summary target_date
  end.

(** [CalendarAgent.invoke]; [today] stands for [date.today()].  Storing the
    summary in the session state is left out. *)
Definition calendar_invoke (today : date) (date_str : date_arg)
    (reply : tool_reply) : CalendarSummaryOutput :=
  match date_str with
  | BadDate => empty_summary today
  | _ =>
      let target_date :=
        match date_str with GoodDate d => d | _ => today end in
      match reply with
      | ReplyError => empty_summary target_date
      | ReplyNotJson => empty_summary target_date
      | ReplyEntries entries =>
          analysis_or_empty target_date (parsed_events entries)
      | ReplyOther => analysis_or_empty target_date []
      end
  end.

(** [a == b] on dates *)
Definition date_eqb (a b : date) : bool :=
  (year a =? year b) && (month a =? month b) && (day a =? day b).

(** [run_planner] (main.py, lines 126-206), given what
    [date.fromisoformat] made of the date ([None] for [ValueError]) and what
    the three agents came to. *)
Definition run_planner (today : date) (target_date : option date)
    (calendar : outcome CalendarSummaryOutput)
    (email : outcome PrioritizedTaskListOutput)
    (context : outcome ContextOutput)
  : result (option ConsolidatedDailyPlanOutput) :=
  match target_date with
  | None => Ok None
  | Some target_date =>
      match calendar with
      | Failed => Ok None
      | Returned c =>
          let calendar_summary :=
            if date_eqb (summary_date c) target_date then Some c else None in
          let task_list :=
            match email with Returned t => Some t | Failed => None end in
          let context_info :=
            match context with Returned x => Some x | Failed => None end in
          final_plan <- combine_agent_outputs today target_date
                          calendar_summary task_list context_info ;;
          Ok (Some final_plan)
      end
  end.

(* ================================================================== *)
(** * Properties *)

Lemma bind_Ok_inv {A B : Type} (m : result A) (k : A -> result B) (b : B) :
  bind m k = Ok b -> exists a, m = Ok a /\ k a = Ok b.
Proof.
  destruct m as [a|e]; simpl; intros H; [eauto | discriminate].
Qed.

Lemma exn_unique (e : exn) : e = TypeError.
Proof. destruct e; reflexivity. Qed.

(** Decompose a successful chain of binds. *)
(** Run the code on a concrete input, then check what is said of the
    result. *)
Ltac by_running :=
  eexists; split; [vm_compute; reflexivity | repeat split; vm_compute; reflexivity].

Tactic Notation "bind_inv" hyp(H) "as" ident(x) ident(Hx) :=
  apply bind_Ok_inv in H; destruct H as (x & Hx & H).

(* ------------------------------------------------------------------ *)
(** ** Stable sort *)

Section StableSortFacts.
Variable A : Type.
Variable k : A -> Z.

Local Abbreviation ins := (stable_insert k).
Local Abbreviation srt := (stable_sort k).
Local Abbreviation asc := (ascending k).

Lemma stable_insert_perm x l : Permutation (x :: l) (ins x l).
Proof.
  induction l as [|y l IH]; simpl; [reflexivity|].
  destruct (k y <? k x); [|reflexivity].
  rewrite perm_swap. now apply perm_skip.
Qed.

Lemma stable_sort_perm l : Permutation l (srt l).
Proof.
  induction l as [|x l IH]; simpl; [constructor|].
  rewrite <- stable_insert_perm. now apply perm_skip.
Qed.

Lemma stable_sort_length l : List.length (srt l) = List.length l.
Proof. symmetry. apply Permutation_length, stable_sort_perm. Qed.

Lemma stable_insert_front x l :
  Forall (fun y => k x <= k y) l -> ins x l = x :: l.
Proof.
  destruct l as [|y l]; simpl; [reflexivity|].
  intros H. inversion_clear H.
  destruct (Z.ltb_spec (k y) (k x)); [lia | reflexivity].
Qed.

Lemma stable_insert_asc x l : asc l -> asc (ins x l).
Proof.
  unfold ascending.
  induction 1 as [|y l Hs IH Hy]; simpl.
  - repeat constructor.
  - destruct (Z.ltb_spec (k y) (k x)) as [Hlt|Hge].
    + constructor; [exact IH|].
      rewrite <- stable_insert_perm. constructor; [lia | exact Hy].
    + constructor; [constructor; assumption|].
      constructor; [lia|].
      eapply Forall_impl; [|exact Hy]. simpl. intros; lia.
Qed.

Lemma stable_sort_asc l : asc (srt l).
Proof.
  induction l; simpl; [constructor | now apply stable_insert_asc].
Qed.

Lemma asc_head_le x l : asc (x :: l) -> Forall (fun y => k x <= k y) l.
Proof. intros H. now inversion H. Qed.

Lemma asc_tail x l : asc (x :: l) -> asc l.
Proof. intros H. now inversion H. Qed.

Lemma stable_sort_fixes_asc l : asc l -> srt l = l.
Proof.
  induction l as [|x l IH]; simpl; [reflexivity|].
  intros H. rewrite IH by (eapply asc_tail; eauto).
  apply stable_insert_front. now apply asc_head_le.
Qed.

Lemma stable_sort_idempotent l : srt (srt l) = srt l.
Proof. apply stable_sort_fixes_asc, stable_sort_asc. Qed.

Lemma filter_stable_insert (p : A -> bool) x l :
  asc l ->
  filter p (ins x l) = if p x then ins x (filter p l) else filter p l.
Proof.
  induction l as [|y l IH]; intros Hs; simpl.
  - destruct (p x); reflexivity.
  - pose proof (asc_tail Hs) as Ht.
    pose proof (asc_head_le Hs) as Hh.
    destruct (Z.ltb_spec (k y) (k x)) as [Hlt|Hge]; simpl.
    + rewrite (IH Ht).
      destruct (p y), (p x); simpl; try reflexivity.
      destruct (Z.ltb_spec (k y) (k x)); [reflexivity | lia].
    + destruct (p x); [|reflexivity].
      symmetry. apply stable_insert_front.
      destruct (p y).
      * constructor; [lia|].
        apply Forall_forall. intros z Hz. apply filter_In in Hz.
        destruct Hz as [Hz _].
        rewrite Forall_forall in Hh. specialize (Hh z Hz). lia.
      * apply Forall_forall. intros z Hz. apply filter_In in Hz.
        destruct Hz as [Hz _].
        rewrite Forall_forall in Hh. specialize (Hh z Hz). lia.
Qed.

Lemma filter_stable_sort (p : A -> bool) l :
  filter p (srt l) = srt (filter p l).
Proof.
  induction l as [|x l IH]; simpl; [reflexivity|].
  rewrite filter_stable_insert by apply stable_sort_asc.
  rewrite IH. destruct (p x); reflexivity.
Qed.

(** Stability: elements of equal key keep their relative order. *)
Lemma stable_sort_stable v l : with_key k v (srt l) = with_key k v l.
Proof.
  unfold with_key. rewrite filter_stable_sort.
  apply stable_sort_fixes_asc.
  unfold ascending.
  induction l as [|x l IH]; simpl; [constructor|].
  destruct (Z.eqb_spec (k x) v) as [Hx|Hx]; [|exact IH].
  constructor; [exact IH|].
  apply Forall_forall. intros z Hz. apply filter_In in Hz.
  destruct Hz as [_ Hz]. apply Z.eqb_eq in Hz. lia.
Qed.
End StableSortFacts.


Section StableSortOrder.
Variable A : Type.
Variable k : A -> Z.

Local Abbreviation ins := (stable_insert k).
Local Abbreviation srt := (stable_sort k).
Local Abbreviation asc := (ascending k).

Lemma key_injective l x y :
  NoDup (map k l) -> In x l -> In y l -> k x = k y -> x = y.
Proof.
  induction l as [|z l IH]; simpl; [tauto|].
  intros Hnd Hx Hy Hk. inversion_clear Hnd as [|? ? Hz Hl].
  destruct Hx as [->|Hx], Hy as [->|Hy]; auto.
  - exfalso. apply Hz. rewrite Hk. now apply in_map.
  - exfalso. apply Hz. rewrite <- Hk. now apply in_map.
Qed.

(** An ascending list with pairwise distinct keys is determined by its
    elements. *)
Lemma asc_unique l1 : forall l2,
  asc l1 -> asc l2 -> Permutation l1 l2 -> NoDup (map k l1) -> l1 = l2.
Proof.
  induction l1 as [|x t1 IH]; intros l2 H1 H2 Hp Hnd.
  - apply Permutation_nil in Hp. now subst.
  - destruct l2 as [|y t2].
    + symmetry in Hp. apply Permutation_nil in Hp. discriminate.
    + assert (Hxy : x = y).
      { apply (@key_injective (x :: t1)); auto.
        - now left.
        - eapply Permutation_in; [symmetry; exact Hp | now left].
        - assert (Hx : In x (y :: t2)) by (eapply Permutation_in; [exact Hp | now left]).
          assert (Hy : In y (x :: t1)) by (eapply Permutation_in; [symmetry; exact Hp | now left]).
          pose proof (asc_head_le H1) as L1. pose proof (asc_head_le H2) as L2.
          rewrite Forall_forall in L1, L2.
          destruct Hx as [->|Hx]; [reflexivity|].
          destruct Hy as [->|Hy]; [reflexivity|].
          specialize (L1 _ Hy). specialize (L2 _ Hx). lia. }
      subst y. f_equal.
      apply IH.
      * eapply asc_tail; eauto.
      * eapply asc_tail; eauto.
      * eapply Permutation_cons_inv; eauto.
      * simpl in Hnd. now inversion Hnd.
Qed.

Lemma stable_sort_perm_unique l l' :
  Permutation l l' -> NoDup (map k l) -> srt l = srt l'.
Proof.
  intros Hp Hnd. apply asc_unique; try apply stable_sort_asc.
  - rewrite <- !stable_sort_perm. exact Hp.
  - eapply Permutation_NoDup; [|exact Hnd].
    apply Permutation_map, stable_sort_perm.
Qed.


Lemma asc_app_r l1 l2 : asc (l1 ++ l2) -> asc l2.
Proof.
  induction l1 as [|y l1 IH]; simpl; [auto|].
  intros H. apply IH. eapply asc_tail; eauto.
Qed.


End StableSortOrder.

(* ------------------------------------------------------------------ *)
(** ** The sort with comparisons that may raise

    For keys that are compared through an integer [inst], and only when
    their awareness [aw] agrees. *)

Section SortedFacts.
Variables (A K : Type).
Variable lt : K -> K -> result bool.
Variable key : A -> K.
Variable inst : K -> Z.
Variable aw : K -> bool.
Hypothesis lt_spec : forall a b,
  lt a b = if Bool.eqb (aw a) (aw b) then Ok (inst a <? inst b)
           else Raise TypeError.

Local Abbreviation ikey := (fun x => inst (key x)).
Local Abbreviation same_aw := (fun b l => Forall (fun x => aw (key x) = b) l).

Lemma insert_ok b x l :
  aw (key x) = b -> same_aw b l ->
  insert lt key x l = Ok (stable_insert ikey x l).
Proof.
  intros Hx. induction 1 as [|y l Hy Hl IH]; simpl; [reflexivity|].
  rewrite lt_spec, Hx, Hy, eqb_reflx. simpl.
  destruct (inst (key y) <? inst (key x)); [|reflexivity].
  rewrite IH. reflexivity.
Qed.

Lemma same_aw_perm b l l' : Permutation l l' -> same_aw b l -> same_aw b l'.
Proof. intros Hp H. eapply Permutation_Forall; eauto. Qed.

Lemma sorted_ok b l :
  same_aw b l -> sorted lt key l = Ok (stable_sort ikey l).
Proof.
  induction 1 as [|x l Hx Hl IH]; simpl; [reflexivity|].
  rewrite IH. simpl. apply insert_ok with (b := b); [exact Hx|].
  eapply same_aw_perm; [apply stable_sort_perm | exact Hl].
Qed.

Lemma insert_inv x l r :
  insert lt key x l = Ok r ->
  r = stable_insert ikey x l /\
  match l with [] => True | y :: _ => aw (key y) = aw (key x) end.
Proof.
  revert r. induction l as [|y l IH]; simpl; intros r H.
  - inversion H. auto.
  - rewrite lt_spec in H.
    destruct (Bool.eqb (aw (key y)) (aw (key x))) eqn:E; [|discriminate].
    apply eqb_prop in E. simpl in H.
    destruct (inst (key y) <? inst (key x)).
    + bind_inv H as r' Ha. inversion H; subst. apply IH in Ha. destruct Ha as [-> _]. auto.
    + inversion H. auto.
Qed.

Lemma sorted_inv l s :
  sorted lt key l = Ok s ->
  s = stable_sort ikey l /\ exists b, same_aw b l.
Proof.
  revert s. induction l as [|x l IH]; simpl; intros s H.
  - inversion H. split; [reflexivity|]. exists true. constructor.
  - bind_inv H as s' Ha. destruct (IH _ Ha) as (-> & b & Hb).
    apply insert_inv in H. destruct H as [-> Hh].
    split; [reflexivity|].
    assert (Hs : same_aw b (stable_sort ikey l))
      by (eapply same_aw_perm; [apply stable_sort_perm | exact Hb]).
    destruct (stable_sort ikey l) as [|y t] eqn:E.
    + assert (l = []) as ->.
      { apply length_zero_iff_nil. rewrite <- (stable_sort_length ikey), E. reflexivity. }
      exists (aw (key x)). repeat constructor.
    + exists b. constructor; [|exact Hb].
      inversion Hs; subst. congruence.
Qed.

(** The result depends on the order of the input only through ties. *)
Lemma sorted_perm_unique l l' :
  Permutation l l' -> NoDup (map ikey l) ->
  sorted lt key l = sorted lt key l'.
Proof.
  intros Hp Hnd.
  destruct (sorted lt key l) as [s|e] eqn:E.
  - apply sorted_inv in E. destruct E as (-> & b & Hb).
    rewrite (@sorted_ok b l') by (eapply same_aw_perm; eauto).
    f_equal. now apply stable_sort_perm_unique.
  - destruct (sorted lt key l') as [s'|e'] eqn:E'.
    + apply sorted_inv in E'. destruct E' as (_ & b & Hb).
      rewrite (@sorted_ok b l) in E by (eapply same_aw_perm; [symmetry|]; eauto).
      discriminate.
    + now rewrite (exn_unique e), (exn_unique e').
Qed.

(** Two keys of different awareness make the sort raise. *)
Lemma sorted_mixed l x y :
  In x l -> In y l -> aw (key x) <> aw (key y) ->
  sorted lt key l = Raise TypeError.
Proof.
  intros Hx Hy Hne.
  destruct (sorted lt key l) as [s|e] eqn:E.
  - apply sorted_inv in E. destruct E as (_ & b & Hb).
    rewrite Forall_forall in Hb.
    rewrite (Hb x Hx), (Hb y Hy) in Hne. congruence.
  - now rewrite (exn_unique e).
Qed.
End SortedFacts.

(* ------------------------------------------------------------------ *)
(** ** Comparisons of timestamps *)

Lemma dt_lt_spec a b :
  dt_lt a b = if Bool.eqb (aware a) (aware b) then Ok (instant a <? instant b)
              else Raise TypeError.
Proof. reflexivity. Qed.

Lemma time_lt_spec a b :
  time_lt a b = if Bool.eqb (time_aware a) (time_aware b)
                then Ok (time_instant a <? time_instant b)
                else Raise TypeError.
Proof. reflexivity. Qed.

Lemma int_lt_spec (a b : Z) :
  int_lt a b = if Bool.eqb ((fun _ => false) a) ((fun _ => false) b)
               then Ok ((fun z => z) a <? (fun z => z) b)
               else Raise TypeError.
Proof. reflexivity. Qed.

Lemma dt_lt_inv a b r :
  dt_lt a b = Ok r -> aware a = aware b /\ r = (instant a <? instant b).
Proof.
  unfold dt_lt. destruct (Bool.eqb (aware a) (aware b)) eqn:E; [|discriminate].
  apply eqb_prop in E. intros H. inversion H. auto.
Qed.


Lemma dt_max_inv a b m :
  dt_max a b = Ok m ->
  aware a = aware b /\ aware m = aware a /\
  instant m = Z.max (instant a) (instant b) /\ (m = a \/ m = b).
Proof.
  unfold dt_max, dt_gt. intros H. bind_inv H as g Ha.
  apply dt_lt_inv in Ha. destruct Ha as [Haw ->].
  inversion H; subst; clear H.
  destruct (Z.ltb_spec (instant a) (instant b)); repeat split; auto; lia.
Qed.

Lemma dt_min_inv a b m :
  dt_min a b = Ok m ->
  aware a = aware b /\ aware m = aware a /\
  instant m = Z.min (instant a) (instant b) /\ (m = a \/ m = b).
Proof.
  unfold dt_min. intros H. bind_inv H as g Ha.
  apply dt_lt_inv in Ha. destruct Ha as [Haw ->].
  inversion H; subst; clear H.
  destruct (Z.ltb_spec (instant b) (instant a)); repeat split; auto; lia.
Qed.



Lemma dt_sub_inv a b r :
  dt_sub a b = Ok r -> aware a = aware b /\ r = instant a - instant b.
Proof.
  unfold dt_sub. destruct (Bool.eqb (aware a) (aware b)) eqn:E; [|discriminate].
  apply eqb_prop in E. intros H. inversion H. auto.
Qed.

Lemma dt_sub_ok a b :
  aware a = aware b -> dt_sub a b = Ok (instant a - instant b).
Proof. unfold dt_sub. intros ->. now rewrite eqb_reflx. Qed.


Lemma aware_combine d t tz :
  aware (combine d t tz) = match tz with Some _ => true | None => false end.
Proof. reflexivity. Qed.


(** Bringing a timestamp to the zone of the day keeps its instant, except
    for a naive timestamp on an aware day. *)
Lemma instant_to_day_zone tz d :
  aware d = match tz with Some _ => true | None => false end ->
  instant (to_day_zone tz d) = instant d.
Proof.
  unfold to_day_zone, aware, instant, astimezone. destruct tz as [z|].
  - destruct (tzinfo d) eqn:E; [|discriminate]. intros _. simpl.
    unfold instant. rewrite E. lia.
  - reflexivity.
Qed.

Lemma window_length d tz : window_end d tz = window_start d tz + 8 * usec_per_hour.
Proof.
  unfold window_end, window_start, instant, combine. simpl.
  destruct tz; unfold usec_per_hour, usec_per_minute; lia.
Qed.

Lemma sort_events_inv l s :
  sort_events l = Ok s ->
  s = stable_sort (fun e => instant (start_time e)) l /\
  exists b, Forall (fun e => aware (start_time e) = b) l.
Proof. apply (@sorted_inv _ _ dt_lt start_time instant aware dt_lt_spec). Qed.


(* ------------------------------------------------------------------ *)
(** ** The free-slot loop *)

Lemma min_free_duration_pos : 0 < min_free_duration.
Proof. reflexivity. Qed.

Lemma whole_minutes_floor n : 0 <= n -> whole_minutes n = n / usec_per_minute.
Proof. intros H. apply Z.quot_div_nonneg; [exact H | reflexivity]. Qed.

Lemma emit_slot_inv fs from to fs' :
  emit_slot fs from to = Ok fs' ->
  aware to = aware from /\
  ((instant to - instant from < min_free_duration /\ fs' = fs) \/
   (min_free_duration <= instant to - instant from /\
    fs' = fs ++ [new_free_slot from to (instant to - instant from)])).
Proof.
  unfold emit_slot. intros H. bind_inv H as dur Hd.
  apply dt_sub_inv in Hd. destruct Hd as [Haw ->].
  split; [exact Haw|].
  inversion H; subst; clear H.
  destruct (Z.leb_spec min_free_duration (instant to - instant from)); auto.
Qed.


Section FreeSlotLoop.
Variables (d : date) (tz : option Z).

Local Abbreviation ws := (combine d work_start tz).
Local Abbreviation we := (combine d work_end tz).
Local Abbreviation day_aware := (match tz with Some _ => true | None => false end).
Local Abbreviation cstart := (clamped_start d tz).
Local Abbreviation cend := (clamped_end d tz).

(** What one iteration does, on instants. *)
Lemma free_slot_step_inv cur fs e cur' fs' :
  aware cur = day_aware ->
  free_slot_step tz ws we (cur, fs) e = Ok (cur', fs') ->
  aware cur' = day_aware /\
  ((cend e <= cstart e /\ cur' = cur /\ fs' = fs) \/
   (cstart e < cend e /\ instant cur' = Z.max (instant cur) (cend e) /\
    ((cstart e <= instant cur /\ fs' = fs) \/
     (instant cur < cstart e /\ cstart e - instant cur < min_free_duration /\
      fs' = fs) \/
     (instant cur < cstart e /\ min_free_duration <= cstart e - instant cur /\
      exists f, fs' = fs ++ [f] /\ slot_start f = instant cur /\
                slot_end f = cstart e /\
                duration_minutes f = whole_minutes (cstart e - instant cur) /\
                aware (fs_end_time f) = aware (fs_start_time f))))).
Proof.
  intros Hcur H. unfold free_slot_step in H.
  bind_inv H as sc Hsc. bind_inv H as ec Hec. bind_inv H as inside Hin.
  apply dt_max_inv in Hsc. destruct Hsc as (Hs1 & Hs2 & Hs3 & _).
  apply dt_min_inv in Hec. destruct Hec as (He1 & He2 & He3 & _).
  apply dt_lt_inv in Hin. destruct Hin as (_ & ->).
  assert (Esc : instant sc = cstart e) by exact Hs3.
  assert (Eec : instant ec = cend e) by exact He3.
  rewrite Esc, Eec in H.
  destruct (Z.ltb_spec (cstart e) (cend e)) as [Hlt|Hge].
  - bind_inv H as after Haf. bind_inv H as fs1 Hfs. bind_inv H as c1 Hc.
    inversion H; subst c1 fs1; clear H.
    apply dt_lt_inv in Haf. destruct Haf as (_ & ->).
    apply dt_max_inv in Hc. destruct Hc as (_ & Hc2 & Hc3 & _).
    rewrite Eec in Hc3.
    split; [congruence|]. right. split; [exact Hlt|]. split; [exact Hc3|].
    rewrite Esc in Hfs.
    destruct (Z.ltb_spec (instant cur) (cstart e)) as [Hg|Hg].
    + apply emit_slot_inv in Hfs. destruct Hfs as (Hsaw & Hfs).
      rewrite Esc in Hfs.
      destruct Hfs as [(Hd & ->)|(Hd & ->)]; [right; left; auto|].
      right; right. repeat split; auto.
      eexists. split; [reflexivity|]. unfold slot_start, slot_end. simpl. auto.
    + inversion Hfs; subst. left. auto.
  - inversion H; subst. split; [exact Hcur|]. left. auto.
Qed.
End FreeSlotLoop.

Section FreeSlotInvariant.
Variables (d : date) (tz : option Z).
Variable es : list CalendarEvent.

Local Abbreviation cstart := (clamped_start d tz).
Local Abbreviation cend := (clamped_end d tz).
Local Abbreviation inv := (free_inv d tz es).

Lemma cstart_lower e : window_start d tz <= cstart e.
Proof. unfold clamped_start. lia. Qed.

Lemma cend_upper e : cend e <= window_end d tz.
Proof. unfold clamped_end. lia. Qed.

Lemma accounted_more fs fs' t :
  accounted d tz es fs t -> accounted d tz es (fs ++ fs') t.
Proof.
  intros [H|[H|H]]; [left; exact H | right; left | right; right; exact H].
  apply Exists_app. now left.
Qed.

Lemma slots_in_order_snoc fs f :
  slots_in_order fs -> Forall (fun g => slot_end g <= slot_start f) fs ->
  slots_in_order (fs ++ [f]).
Proof.
  unfold slots_in_order. induction 1 as [|g fs Hs IH Hg]; simpl; intros Hf.
  - repeat constructor.
  - inversion_clear Hf as [|? ? Hgf Hrest]. constructor; [now apply IH|].
    apply Forall_app. split; [exact Hg | now constructor].
Qed.

(** Between the cursor and the start of the next busy event of a list in
    start order there is no event. *)
Lemma cursor_gap_free done e rest c :
  es = done ++ e :: rest ->
  Forall (fun x => cstart x < cend x -> cend x <= c) done ->
  Forall (fun r => cstart e <= cstart r) rest ->
  event_free d tz es c (cstart e).
Proof.
  intros Hes Hdone Hrest u x Hu Hx [Hx1 Hx2].
  subst es. apply in_app_or in Hx. destruct Hx as [Hx|[Hx|Hx]].
  - rewrite Forall_forall in Hdone. specialize (Hdone x Hx). lia.
  - subst x. lia.
  - rewrite Forall_forall in Hrest. specialize (Hrest x Hx). lia.
Qed.

(** One iteration keeps the invariant. *)
Lemma free_inv_step done e rest c fs c' fs' :
  es = done ++ e :: rest ->
  Forall (fun r => cstart e <= cstart r) rest ->
  inv done c fs ->
  ((cend e <= cstart e /\ c' = c /\ fs' = fs) \/
   (cstart e < cend e /\ c' = Z.max c (cend e) /\
    ((cstart e <= c /\ fs' = fs) \/
     (c < cstart e /\ cstart e - c < min_free_duration /\ fs' = fs) \/
     (c < cstart e /\ min_free_duration <= cstart e - c /\
      exists f, fs' = fs ++ [f] /\ slot_start f = c /\ slot_end f = cstart e /\
                duration_minutes f = whole_minutes (cstart e - c) /\
                aware (fs_end_time f) = aware (fs_start_time f))))) ->
  inv (done ++ [e]) c' fs'.
Proof.
  intros Hes Hfut (Hw & Hb & Hdone & Hord & Hok & Hend & Hdis & Hacc) Hstep.
  assert (Hin : In e es) by (subst es; apply in_elt).
  assert (Hfree : event_free d tz es c (cstart e))
    by (eapply cursor_gap_free; eauto).
  pose proof (cstart_lower e) as Hlo. pose proof (cend_upper e) as Hhi.
  pose proof min_free_duration_pos as Hmin.
  destruct Hstep as [(Hemp & -> & ->)|(Hne & -> & Hstep)].
  { (* the event is empty after clamping *)
    unfold free_inv. repeat split; auto; try lia.
    apply Forall_app. split; [exact Hdone|]. constructor; [lia | constructor]. }
  assert (Hbusy : busy d tz es e) by (split; assumption).
  assert (Hb' : Z.max c (cend e) = window_start d tz
                \/ exists x, busy d tz es x /\ Z.max c (cend e) = cend x).
  { destruct (Z.max_spec c (cend e)) as [[_ ->]|[_ ->]]; [right; eauto | exact Hb]. }
  assert (Hdone' : Forall (fun x => cstart x < cend x -> cend x <= Z.max c (cend e))
                          (done ++ [e])).
  { apply Forall_app. split.
    - eapply Forall_impl; [|exact Hdone]. simpl. intros x Hx Hxn.
      specialize (Hx Hxn). lia.
    - constructor; [lia | constructor]. }
  assert (Hevent : forall t, cstart e <= t < Z.max c (cend e) -> c <= t ->
                             accounted d tz es fs' t).
  { intros t Ht Hct. left. apply Exists_exists. exists e. split; [exact Hin|].
    unfold in_event. lia. }
  destruct Hstep as [(Hle & ->)|[(Hlt & Hshort & ->)|(Hlt & Hlong & f & -> & Hf1 & Hf2 & Hf3 & Hf4)]].
  - (* the event starts at or before the cursor *)
    unfold free_inv. repeat split; auto; try lia.
    + eapply Forall_impl; [|exact Hend]. simpl. intros; lia.
    + intros t Ht. destruct (Z.lt_ge_cases t c); [apply Hacc; lia|].
      apply Hevent; lia.
  - (* a gap below the minimum duration *)
    unfold free_inv. repeat split; auto; try lia.
    + eapply Forall_impl; [|exact Hend]. simpl. intros; lia.
    + intros t Ht. destruct (Z.lt_ge_cases t c); [apply Hacc; lia|].
      destruct (Z.lt_ge_cases t (cstart e)); [|apply Hevent; lia].
      right; right. exists c, (cstart e). repeat split; auto; try lia.
      right. eauto.
  - (* a free slot is emitted *)
    assert (Hfok : slot_ok d tz f).
    { unfold slot_ok. rewrite Hf1, Hf2, Hf3. repeat split; try lia; auto.
      apply whole_minutes_floor. lia. }
    unfold free_inv. repeat split; auto; try lia.
    + apply slots_in_order_snoc; [exact Hord|].
      eapply Forall_impl; [|exact Hend]. simpl. intros; lia.
    + apply Forall_app. split; [exact Hok | constructor; [exact Hfok | constructor]].
    + apply Forall_app. split.
      * eapply Forall_impl; [|exact Hend]. simpl. intros; lia.
      * constructor; [lia | constructor].
    + intros g x t Hg Hx Hgt. apply in_app_or in Hg.
      destruct Hg as [Hg|[<-|[]]]; [now apply (Hdis g) |].
      apply Hfree; [|exact Hx]. unfold in_slot in Hgt. lia.
    + intros t Ht. destruct (Z.lt_ge_cases t c).
      { apply accounted_more, Hacc. lia. }
      destruct (Z.lt_ge_cases t (cstart e)); [|apply Hevent; lia].
      right; left. apply Exists_app. right. constructor. unfold in_slot. lia.
Qed.
End FreeSlotInvariant.

Section FreeSlotRun.
Variables (d : date) (tz : option Z).
Variable es : list CalendarEvent.

Local Abbreviation ws := (combine d work_start tz).
Local Abbreviation we := (combine d work_end tz).
Local Abbreviation day_aware := (match tz with Some _ => true | None => false end).
Local Abbreviation cstart := (clamped_start d tz).
Local Abbreviation cend := (clamped_end d tz).
Local Abbreviation inv := (free_inv d tz es).

Lemma free_inv_init : inv [] (instant ws) [].
Proof.
  pose proof (window_length d tz) as Hlen.
  unfold free_inv. fold (window_start d tz).
  assert (0 < usec_per_hour) by reflexivity.
  repeat split; auto; try lia; try constructor.
Qed.

Lemma free_slot_loop_inv : forall rest done cur fs cur' fs',
  es = done ++ rest ->
  ascending cstart rest ->
  aware cur = day_aware ->
  inv done (instant cur) fs ->
  free_slot_loop tz ws we rest (cur, fs) = Ok (cur', fs') ->
  aware cur' = day_aware /\ inv es (instant cur') fs'.
Proof.
  induction rest as [|e rest IH]; simpl; intros done cur fs cur' fs' Hes Hasc Hcur Hinv H.
  - inversion H; subst cur' fs'. rewrite app_nil_r in Hes. subst done. auto.
  - bind_inv H as st Hst. destruct st as [c1 f1].
    apply free_slot_step_inv in Hst; [|exact Hcur].
    destruct Hst as [Hc1 Hst].
    apply (IH (done ++ [e]) c1 f1); auto.
    + rewrite <- app_assoc. exact Hes.
    + eapply asc_tail; eauto.
    + eapply free_inv_step; eauto.
      * apply (asc_head_le Hasc).
      * destruct Hst as [(? & -> & ->)|(? & -> & ?)]; [left; auto | right; auto].
Qed.

(** The properties of the free slots once the trailing slot is added. *)
Lemma trailing_slot_inv cur fs fs' :
  aware cur = day_aware ->
  inv es (instant cur) fs ->
  trailing_slot we (cur, fs) = Ok fs' ->
  slots_in_order fs'
  /\ Forall (slot_ok d tz) fs'
  /\ (forall f e t, In f fs' -> In e es -> in_slot t f -> ~ in_event d tz t e)
  /\ (forall t, window_start d tz <= t < window_end d tz ->
                accounted d tz es fs' t).
Proof.
  intros Hcur (Hw & Hb & Hdone & Hord & Hok & Hend & Hdis & Hacc) H.
  unfold trailing_slot in H. bind_inv H as after Haf.
  apply dt_lt_inv in Haf. destruct Haf as (_ & ->).
  fold (window_end d tz) in H.
  pose proof min_free_duration_pos as Hmin.
  assert (Hfree : event_free d tz es (instant cur) (window_end d tz)).
  { intros u x Hu Hx [Hx1 Hx2]. rewrite Forall_forall in Hdone.
    specialize (Hdone x Hx). lia. }
  destruct (Z.ltb_spec (instant cur) (window_end d tz)) as [Hlt|Hge].
  - apply emit_slot_inv in H. destruct H as (Haw & H).
    fold (window_end d tz) in H.
    destruct H as [(Hshort & ->)|(Hlong & ->)].
    + repeat split; auto.
      intros t Ht. destruct (Z.lt_ge_cases t (instant cur)); [apply Hacc; lia|].
      right; right. exists (instant cur), (window_end d tz).
      repeat split; auto; lia.
    + set (f := new_free_slot cur we (window_end d tz - instant cur)).
      assert (Hf1 : slot_start f = instant cur) by reflexivity.
      assert (Hf2 : slot_end f = window_end d tz) by reflexivity.
      repeat split.
      * apply slots_in_order_snoc; [exact Hord|].
        eapply Forall_impl; [|exact Hend]. simpl. intros; lia.
      * apply Forall_app. split; [exact Hok|].
        constructor; [|constructor].
        unfold slot_ok. rewrite Hf1, Hf2. repeat split; try lia; auto.
        apply whole_minutes_floor. lia.
      * intros g x t Hg Hx Hgt. apply in_app_or in Hg.
        destruct Hg as [Hg|[<-|[]]]; [now apply (Hdis g)|].
        apply Hfree; [|exact Hx]. unfold in_slot in Hgt. lia.
      * intros t Ht. destruct (Z.lt_ge_cases t (instant cur)).
        { apply accounted_more, Hacc. lia. }
        right; left. apply Exists_app. right. constructor.
        unfold in_slot. lia.
  - inversion H; subst. repeat split; auto.
    intros t Ht. apply Hacc. lia.
Qed.
End FreeSlotRun.

Lemma ascending_clamped_start d tz l :
  ascending (fun e => instant (start_time e)) l ->
  Forall (fun e => aware (start_time e)
                   = match tz with Some _ => true | None => false end) l ->
  ascending (clamped_start d tz) l.
Proof.
  unfold ascending.
  assert (Hk : forall e,
             aware (start_time e) = match tz with Some _ => true | None => false end ->
             clamped_start d tz e
             = Z.max (instant (start_time e)) (window_start d tz)).
  { intros e He. unfold clamped_start, event_start_aware.
    now rewrite instant_to_day_zone. }
  induction 1 as [|x l Hs IH Hx]; intros Haw; [constructor|].
  inversion_clear Haw as [|? ? Hax Hal].
  constructor; [now apply IH|].
  rewrite Forall_forall in *. intros y Hy.
  rewrite (Hk x Hax), (Hk y (Hal y Hy)). specialize (Hx y Hy). lia.
Qed.

(** The events of a day that could be sorted all read their start on the
    clock kind of the first one. *)
Lemma sorted_events_awareness l s :
  sort_events l = Ok s ->
  Forall (fun e => aware (start_time e)
                   = match first_tzinfo s with Some _ => true | None => false end) s.
Proof.
  intros H. apply sort_events_inv in H. destruct H as (Hs & b & Hb).
  assert (Hsb : Forall (fun e => aware (start_time e) = b) s).
  { subst s. eapply Permutation_Forall; [apply stable_sort_perm | exact Hb]. }
  destruct s as [|h t]; [constructor|].
  assert (Hh : match first_tzinfo (h :: t) with Some _ => true | None => false end = b).
  { inversion Hsb; subst. reflexivity. }
  rewrite Hh. exact Hsb.
Qed.

(** The free slots of a successful analysis. *)
Lemma analyze_schedule_free_slots d l s :
  analyze_schedule d l = Ok s ->
  let tz := first_tzinfo (events s) in
  events s = stable_sort (fun e => instant (start_time e)) l
  /\ slots_in_order (free_slots s)
  /\ Forall (slot_ok d tz) (free_slots s)
  /\ (forall f e t, In f (free_slots s) -> In e (events s) ->
                    in_slot t f -> ~ in_event d tz t e)
  /\ (forall t, window_start d tz <= t < window_end d tz ->
                accounted d tz (events s) (free_slots s) t).
Proof.
  unfold analyze_schedule. intros H.
  bind_inv H as es Hes. bind_inv H as st Hst. bind_inv H as fs Hfs.
  bind_inv H as cs Hcs. inversion H; subst s; clear H. simpl.
  destruct st as [cur fs0].
  pose proof (sorted_events_awareness _ Hes) as Haw.
  pose proof (sort_events_inv _ Hes) as (Hsorted & _).
  split; [exact Hsorted|].
  assert (Hrun : aware cur = match first_tzinfo es with Some _ => true | None => false end
                 /\ free_inv d (first_tzinfo es) es es (instant cur) fs0).
  { eapply free_slot_loop_inv with (done := []); [reflexivity | | | | exact Hst].
    - apply ascending_clamped_start; [|exact Haw].
      rewrite Hsorted. apply stable_sort_asc.
    - apply aware_combine.
    - apply free_inv_init. }
  destruct Hrun as (Hcur & Hinv).
  eapply trailing_slot_inv; eauto.
Qed.

(* ------------------------------------------------------------------ *)
(** ** Free slots of the working day *)

Lemma slots_in_order_disjoint fs :
  slots_in_order fs ->
  ForallOrdPairs (fun f g => slot_end f <= slot_start g \/ slot_end g <= slot_start f) fs.
Proof.
  unfold slots_in_order. induction 1 as [|f fs Hs IH Hf]; constructor; auto.
  eapply Forall_impl; [|exact Hf]. simpl. auto.
Qed.

(** C1, as the code has it.  For every event list the analysis accepts:
    the free slots are in time order and pairwise disjoint, each lies in the
    working hours and lasts at least 15 minutes, no free slot meets a clamped
    event, and every instant of the working hours lies in a clamped event, in
    a free slot, or in a gap between busy intervals that is shorter than 15
    minutes (such gaps are left out, and events may overlap each other). *)
Theorem free_slots_cover_working_hours d l s :
  analyze_schedule d l = Ok s ->
  let tz := first_tzinfo (events s) in
  Permutation l (events s)
  /\ slots_in_order (free_slots s)
  /\ ForallOrdPairs (fun f g => slot_end f <= slot_start g \/ slot_end g <= slot_start f)
                    (free_slots s)
  /\ Forall (fun f => min_free_duration <= slot_end f - slot_start f
                      /\ window_start d tz <= slot_start f
                      /\ slot_end f <= window_end d tz) (free_slots s)
  /\ (forall f e t, In f (free_slots s) -> In e (events s) ->
                    in_slot t f -> ~ in_event d tz t e)
  /\ (forall t, window_start d tz <= t < window_end d tz ->
                accounted d tz (events s) (free_slots s) t).
Proof.
  intros H tz. destruct (analyze_schedule_free_slots _ _ H) as (Hev & Hord & Hok & Hdis & Hacc).
  split; [rewrite Hev; apply stable_sort_perm|].
  split; [exact Hord|]. split; [now apply slots_in_order_disjoint|].
  split; [|split; assumption].
  eapply Forall_impl; [|exact Hok].
  intros f (H1 & H2 & H3 & _). auto.
Qed.

(** The scenario of the specification: A 09:00-10:00, B 09:30-10:30,
    C 13:00-14:00. *)
Lemma free_slots_cover_working_hours_witness :
  exists s,
    analyze_schedule sample_day
      [meeting "A" 9 0 10 0 None; meeting "B" 9 30 10 30 None;
       meeting "C" 13 0 14 0 None] = Ok s
    /\ slots_in_order (free_slots s)
    /\ forall t, window_start sample_day (first_tzinfo (events s)) <= t
                 < window_end sample_day (first_tzinfo (events s)) ->
                 accounted sample_day (first_tzinfo (events s)) (events s)
                           (free_slots s) t.
Proof.
  assert (E : exists s,
             analyze_schedule sample_day
               [meeting "A" 9 0 10 0 None; meeting "B" 9 30 10 30 None;
                meeting "C" 13 0 14 0 None] = Ok s)
    by (eexists; vm_compute; reflexivity).
  destruct E as [s E]. exists s. split; [exact E|].
  destruct (@free_slots_cover_working_hours _ _ _ E) as (_ & Hord & _ & _ & _ & Hacc).
  split; [exact Hord | exact Hacc].
Defined.

Example specification_scenario :
  exists s,
    analyze_schedule sample_day
      [meeting "C" 13 0 14 0 None; meeting "A" 9 0 10 0 None;
       meeting "B" 9 30 10 30 None] = Ok s
    /\ map summary (events s) = ["A"; "B"; "C"]%string
    /\ map (fun f => (strftime_HM (fs_start_time f), strftime_HM (fs_end_time f),
                      duration_minutes f)) (free_slots s)
       = [("10:30"%string, "13:00"%string, 150);
          ("14:00"%string, "17:00"%string, 180)]
    /\ map details (conflicts s)
       = ["Overlap between 'A' (09:00-10:00) and 'B' (09:30-10:30)"%string].
Proof.
  by_running.
Qed.

(** C1, as the specification states it, fails: with A 09:00-10:00 and
    B 10:05-17:00 the five minutes after 10:00 are in no event and in no free
    slot. *)
Lemma exact_cover_counterexample :
  exists s,
    analyze_schedule sample_day
      [meeting "A" 9 0 10 0 None; meeting "B" 10 5 17 0 None] = Ok s
    /\ ~ partitions_working_hours sample_day s.
Proof.
  eexists. split; [vm_compute; reflexivity|].
  intros (_ & _ & H).
  specialize (H (instant (at_time 10 2 None))).
  assert (Hw : window_start sample_day None <= instant (at_time 10 2 None)
               < window_end sample_day None) by (vm_compute; split; congruence).
  apply H in Hw. vm_compute in Hw. discriminate.
Qed.

(** C10.  The [duration_minutes] of every free slot is the length
    [end_time - start_time] of the slot in whole minutes, rounded down:
    the seconds beyond a whole minute are dropped. *)
Theorem duration_minutes_rounds_down d l s :
  analyze_schedule d l = Ok s ->
  Forall (fun f =>
            exists delta,
              dt_sub (fs_end_time f) (fs_start_time f) = Ok delta
              /\ 0 <= delta
              /\ duration_minutes f = delta / usec_per_minute
              /\ duration_minutes f = Z.quot delta usec_per_minute
              /\ duration_minutes f * usec_per_minute <= delta
                 < (duration_minutes f + 1) * usec_per_minute)
         (free_slots s).
Proof.
  intros H. destruct (analyze_schedule_free_slots _ _ H) as (_ & _ & Hok & _).
  eapply Forall_impl; [|exact Hok].
  intros f (H1 & H2 & H3 & H4 & H5).
  exists (slot_end f - slot_start f).
  pose proof min_free_duration_pos.
  assert (Hpos : 0 < usec_per_minute) by reflexivity.
  split; [now apply dt_sub_ok|]. split; [lia|]. split; [exact H4|].
  split; [rewrite H4; symmetry; apply Z.quot_div_nonneg; lia|].
  rewrite H4.
  pose proof (Z.mul_div_le (slot_end f - slot_start f) usec_per_minute Hpos).
  pose proof (Z.mul_succ_div_gt (slot_end f - slot_start f) usec_per_minute Hpos).
  lia.
Qed.

(** A slot of 16 minutes less one microsecond counts 15 minutes. *)
Example sixteen_minutes_less_a_microsecond :
  exists s,
    analyze_schedule sample_day
      [meeting "A" 9 0 16 44 None;
       mkCalendarEvent (at_time 16 44 None)
         (mkDatetime (wall (at_time 16 44 None) + 1) None) "B" None] = Ok s
    /\ map duration_minutes (free_slots s) = [15].
Proof.
  by_running.
Qed.

Lemma duration_minutes_rounds_down_witness :
  exists s,
    analyze_schedule sample_day
      [meeting "A" 9 0 16 44 None;
       mkCalendarEvent (at_time 16 44 None)
         (mkDatetime (wall (at_time 16 44 None) + 1) None) "B" None] = Ok s
    /\ Forall (fun f =>
            exists delta,
              dt_sub (fs_end_time f) (fs_start_time f) = Ok delta
              /\ 0 <= delta
              /\ duration_minutes f = delta / usec_per_minute
              /\ duration_minutes f = Z.quot delta usec_per_minute
              /\ duration_minutes f * usec_per_minute <= delta
                 < (duration_minutes f + 1) * usec_per_minute)
         (free_slots s).
Proof.
  assert (E : exists s,
             analyze_schedule sample_day
               [meeting "A" 9 0 16 44 None;
                mkCalendarEvent (at_time 16 44 None)
                  (mkDatetime (wall (at_time 16 44 None) + 1) None) "B" None] = Ok s)
    by (eexists; vm_compute; reflexivity).
  destruct E as [s E]. exists s. split; [exact E|].
  exact (@duration_minutes_rounds_down _ _ _ E).
Defined.

(* ------------------------------------------------------------------ *)
(** ** Conflicts *)

Lemma overlap_inv a b r :
  overlap a b = Ok r -> (r = true <-> overlaps a b).
Proof.
  unfold overlap, overlaps. intros H.
  bind_inv H as m Hm. bind_inv H as n Hn.
  apply dt_max_inv in Hm. destruct Hm as (_ & _ & Hm & _).
  apply dt_min_inv in Hn. destruct Hn as (_ & _ & Hn & _).
  apply dt_lt_inv in H. destruct H as (_ & ->).
  rewrite Hm, Hn. apply Z.ltb_lt.
Qed.


Lemma overlaps_self a b : overlaps a b -> overlaps a a.
Proof. unfold overlaps. lia. Qed.




Lemma conflict_exists_more cs cs' a b :
  conflict_exists cs a b = true -> conflict_exists (cs ++ cs') a b = true.
Proof.
  unfold conflict_exists. rewrite existsb_app. intros ->. reflexivity.
Qed.


Lemma event_eqb_refl a : event_eqb a a = true.
Proof.
  unfold event_eqb, dt_eqb. rewrite !eqb_reflx, !Z.eqb_refl, String.eqb_refl.
  simpl. destruct (location a); simpl; [apply String.eqb_refl | reflexivity].
Qed.

Lemma conflict_exists_new cs a b s :
  conflict_exists (cs ++ [mkCalendarConflict [a; b] s]) a b = true.
Proof.
  unfold conflict_exists. rewrite existsb_app. simpl.
  unfold event_in. simpl. rewrite !event_eqb_refl. simpl.
  rewrite orb_true_r. simpl. apply orb_true_r.
Qed.

Lemma ForallOrdPairs_snoc {A : Type} (R : A -> A -> Prop) l c :
  ForallOrdPairs R l -> Forall (fun a => R a c) l -> ForallOrdPairs R (l ++ [c]).
Proof.
  induction 1 as [|a l Ha Hl IH]; simpl; intros Hc.
  - repeat constructor.
  - inversion_clear Hc as [|? ? Hac Hlc]. constructor; [|now apply IH].
    apply Forall_app. split; [exact Ha | now constructor].
Qed.

(** A pair that no earlier conflict holds is different from every earlier
    conflict. *)
Lemma conflict_fresh cs a b s :
  conflict_exists cs a b = false ->
  Forall (fun c => same_pair c (mkCalendarConflict [a; b] s) = false) cs.
Proof.
  unfold conflict_exists, same_pair. simpl. intros H.
  apply Forall_forall. intros c Hc.
  destruct (event_in a (conflicting_events c) && event_in b (conflicting_events c)) eqn:E.
  - assert (existsb (fun c => event_in a (conflicting_events c)
                              && event_in b (conflicting_events c)) cs = true)
      by (apply existsb_exists; eauto).
    congruence.
  - rewrite andb_true_r. exact E.
Qed.

(** Different conflicts never report the same pair. *)
Local Abbreviation reported_once :=
  (ForallOrdPairs (fun c1 c2 => same_pair c1 c2 = false)).

Local Abbreviation is_pair_of x rest :=
  (fun c => exists y, In y rest /\ conflicting_events c = [x; y] /\ overlaps x y).

Lemma conflicts_inner_inv x : forall rest cs cs',
  conflicts_inner x rest cs = Ok cs' ->
  exists extra,
    cs' = cs ++ extra
    /\ Forall (is_pair_of x rest) extra
    /\ (List.length extra <= List.length rest)%nat
    /\ (forall y, In y rest -> overlaps x y -> conflict_exists cs' x y = true)
    /\ (reported_once cs -> reported_once cs').
Proof.
  induction rest as [|y rest IH]; cbn [conflicts_inner]; intros cs cs' H.
  - inversion H; subst. exists []. rewrite app_nil_r.
    repeat split; auto.
  - bind_inv H as o Ho. apply overlap_inv in Ho.
    apply IH in H. destruct H as (extra & -> & Hex & Hlen & Hrep & Honce).
    assert (Hex' : Forall (is_pair_of x (y :: rest)) extra).
    { eapply Forall_impl; [|exact Hex]. simpl.
      intros c (z & Hz & Hc). exists z. split; [now right | exact Hc]. }
    destruct o; simpl in *.
    + assert (Hxy : overlaps x y) by now apply Ho.
      destruct (conflict_exists cs x y) eqn:E; simpl in *.
      * exists extra. repeat split; auto.
        intros z [<-|Hz] Hov; [now apply conflict_exists_more | now apply Hrep].
      * exists (mkCalendarConflict [x; y] (conflict_details x y) :: extra).
        rewrite <- app_assoc. simpl. repeat split; auto.
        -- constructor; [|exact Hex']. exists y. simpl. auto.
        -- simpl. lia.
        -- intros z [<-|Hz] Hov; [|rewrite <- app_assoc in Hrep; now apply Hrep].
           change (cs ++ mkCalendarConflict [x; y] (conflict_details x y) :: extra)
             with (cs ++ [mkCalendarConflict [x; y] (conflict_details x y)] ++ extra).
           rewrite app_assoc. apply conflict_exists_more, conflict_exists_new.
        -- intros Hcs. rewrite <- app_assoc in Honce. apply Honce.
           apply ForallOrdPairs_snoc; [exact Hcs | now apply conflict_fresh].
    + exists extra. repeat split; auto.
      intros z [<-|Hz] Hov; [|now apply Hrep].
      apply Ho in Hov. discriminate.
Qed.















Example three_way_overlap :
  exists s,
    analyze_schedule sample_day
      [meeting "C" 10 0 12 0 None; meeting "A" 9 0 11 0 None;
       meeting "B" 9 30 11 30 None] = Ok s
    /\ map (fun c => map summary (conflicting_events c)) (conflicts s)
       = [["A"; "B"]; ["A"; "C"]; ["B"; "C"]]%string.
Proof. by_running. Qed.

Example touching_events_do_not_conflict :
  exists s,
    analyze_schedule sample_day
      [meeting "A" 9 0 10 0 None; meeting "B" 10 0 11 0 None] = Ok s
    /\ conflicts s = [].
Proof. by_running. Qed.

(** Two copies of A and an earlier B that overlaps them: the conflict of B
    and A holds both copies, and no conflict of their own is added. *)
Example duplicate_events_share_a_conflict :
  exists s,
    analyze_schedule sample_day
      [meeting "B" 9 0 10 30 None; meeting "A" 9 30 10 0 None;
       meeting "A" 9 30 10 0 None] = Ok s
    /\ map (fun c => map summary (conflicting_events c)) (conflicts s)
       = [["B"; "A"]]%string.
Proof. by_running. Qed.

Example duplicated_event_reported_once :
  exists s,
    analyze_schedule sample_day
      [meeting "A" 9 0 10 0 None; meeting "B" 9 30 10 30 None;
       meeting "A" 9 0 10 0 None] = Ok s
    /\ map (fun c => map summary (conflicting_events c)) (conflicts s)
       = [["A"; "A"]; ["A"; "B"]]%string.
Proof. by_running. Qed.

(* ------------------------------------------------------------------ *)
(** ** Naive and aware timestamps in one list *)

(** C4.  The analysis raises [TypeError] as soon as two events of the list
    differ in the awareness of their start: [events.sort] (line 76) compares
    the raw start times before lines 91-96 bring them to one zone. *)
Theorem mixed_awareness_raises d l a b :
  In a l -> In b l -> aware (start_time a) <> aware (start_time b) ->
  analyze_schedule d l = Raise TypeError.
Proof.
  intros Ha Hb Hne. unfold analyze_schedule, sort_events.
  rewrite (@sorted_mixed _ _ dt_lt start_time instant aware dt_lt_spec l a b Ha Hb Hne).
  reflexivity.
Qed.

Lemma mixed_awareness_raises_witness :
  analyze_schedule sample_day
    [meeting "A" 9 0 10 0 None; meeting "B" 11 0 12 0 (Some utc)]
  = Raise TypeError.
Proof.
  apply (@mixed_awareness_raises sample_day _
           (meeting "A" 9 0 10 0 None) (meeting "B" 11 0 12 0 (Some utc))).
  - simpl. auto.
  - simpl. auto.
  - simpl. discriminate.
Defined.

(** A single event with an aware start and a naive end is accepted: the end
    is read on the clock of the start (line 93). *)
Example aware_start_naive_end :
  exists s,
    analyze_schedule sample_day
      [mkCalendarEvent (at_time 10 0 (Some (utc_plus 2))) (at_time 11 0 None)
                       "A" None] = Ok s
    /\ map (fun f => (strftime_HM (fs_start_time f), strftime_HM (fs_end_time f)))
           (free_slots s)
       = [("09:00"%string, "10:00"%string); ("11:00"%string, "17:00"%string)]
    /\ map (fun f => tzinfo (fs_start_time f)) (free_slots s)
       = [Some (utc_plus 2); Some (utc_plus 2)].
Proof. by_running. Qed.

(* ------------------------------------------------------------------ *)
(** ** The order of the input *)

(** C6, as the code has it.  When no two events of the list start at the
    same instant, every permutation of the list has the same analysis: the
    same summary, or the same exception.  (Events that start together are
    kept in the order of the input.) *)
Theorem analysis_independent_of_input_order d l l' :
  Permutation l l' ->
  NoDup (map (fun e => instant (start_time e)) l) ->
  analyze_schedule d l = analyze_schedule d l'.
Proof.
  intros Hp Hnd. unfold analyze_schedule, sort_events.
  rewrite (@sorted_perm_unique _ _ dt_lt start_time instant aware dt_lt_spec
             l l' Hp Hnd).
  reflexivity.
Qed.

Lemma analysis_independent_of_input_order_witness :
  analyze_schedule sample_day
    [meeting "C" 13 0 14 0 None; meeting "A" 9 0 10 0 None;
     meeting "B" 9 30 10 30 None]
  = analyze_schedule sample_day
      [meeting "A" 9 0 10 0 None; meeting "C" 13 0 14 0 None;
       meeting "B" 9 30 10 30 None].
Proof.
  apply analysis_independent_of_input_order.
  - apply perm_swap.
  - vm_compute. repeat constructor; simpl; intros H;
      repeat (destruct H as [H|H]; try discriminate H); exact H.
Defined.

(** C6, as the specification states it, fails: two events that start
    together come out in the order they came in. *)
Lemma tied_events_keep_input_order :
  Permutation [meeting "A" 9 0 10 0 None; meeting "B" 9 0 10 0 None]
              [meeting "B" 9 0 10 0 None; meeting "A" 9 0 10 0 None]
  /\ analyze_schedule sample_day
       [meeting "A" 9 0 10 0 None; meeting "B" 9 0 10 0 None]
     <> analyze_schedule sample_day
          [meeting "B" 9 0 10 0 None; meeting "A" 9 0 10 0 None].
Proof.
  split; [apply perm_swap|].
  vm_compute. intros H. discriminate H.
Qed.

(* ------------------------------------------------------------------ *)
(** ** Lists of one awareness are always analysed *)










Section FreeSlotTotal.
Variables (d : date) (tz : option Z).

Local Abbreviation ws := (combine d work_start tz).
Local Abbreviation we := (combine d work_end tz).
Local Abbreviation day_aware := (match tz with Some _ => true | None => false end).
Local Abbreviation fits :=
  (fun e => aware (start_time e) = day_aware /\ aware (end_time e) = day_aware).






End FreeSlotTotal.




(* ------------------------------------------------------------------ *)
(** ** Degenerate events *)





Example degenerate_first_event_free_slots :
  exists s,
    analyze_schedule sample_day
      [mkCalendarEvent (at_time 8 0 (Some (utc_plus 5)))
         (at_time 7 0 (Some (utc_plus 5))) "D" None;
       meeting "E" 10 0 11 0 (Some utc)] = Ok s
    /\ map (fun f => (strftime_HM (fs_start_time f), strftime_HM (fs_end_time f),
                      duration_minutes f)) (free_slots s)
       = [("09:00"%string, "15:00"%string, 360);
          ("16:00"%string, "17:00"%string, 60)].
Proof. by_running. Qed.

Example without_degenerate_first_event :
  exists s,
    analyze_schedule sample_day [meeting "E" 10 0 11 0 (Some utc)] = Ok s
    /\ map (fun f => (strftime_HM (fs_start_time f), strftime_HM (fs_end_time f),
                      duration_minutes f)) (free_slots s)
       = [("09:00"%string, "10:00"%string, 60);
          ("11:00"%string, "17:00"%string, 360)].
Proof. by_running. Qed.

(* ------------------------------------------------------------------ *)
(** ** The consolidated plan *)

Lemma sorted_tasks_eq l :
  sorted int_lt priority_key l = Ok (stable_sort priority_key l).
Proof.
  apply (@sorted_ok _ _ int_lt priority_key (fun z => z) (fun _ => false)
           int_lt_spec false).
  apply Forall_forall. reflexivity.
Qed.

Lemma sort_plan_by_time_ok w l :
  Forall (fun i => time_aware (item_time i) = w) l ->
  sort_plan_by_time l = Ok (stable_sort plan_key l).
Proof.
  apply (@sorted_ok _ _ time_lt item_time time_instant time_aware time_lt_spec).
Qed.

Lemma sort_plan_by_time_inv l s :
  sort_plan_by_time l = Ok s -> s = stable_sort plan_key l.
Proof.
  intros H.
  now apply (@sorted_inv _ _ time_lt item_time time_instant time_aware
               time_lt_spec) in H.
Qed.

Lemma task_items_naive today : forall l n,
  Forall (fun i => time_aware (item_time i) = false) (task_items today n l).
Proof.
  induction l as [|t l IH]; intros n; simpl; constructor; auto.
Qed.

Lemma task_items_length today : forall l n,
  List.length (task_items today n l) = List.length l.
Proof. induction l as [|t l IH]; intros n; simpl; auto. Qed.

Lemma task_items_type today : forall l n,
  Forall (fun i => item_type i = task) (task_items today n l).
Proof. induction l as [|t l IH]; intros n; simpl; constructor; auto. Qed.

(** The items in the order they are appended: events, tasks by priority,
    recommendations. *)
Lemma collected_items_eq today cs tl ci :
  collected_items today cs tl ci
  = Ok (event_items (present events cs)
        ++ task_items today 0 (stable_sort priority_key (present tasks tl))
        ++ recommendation_items (present recommendations ci)).
Proof.
  unfold collected_items.
  destruct cs, tl, ci; simpl; rewrite ?sorted_tasks_eq; reflexivity.
Qed.

Lemma collected_items_naive today cs tl ci :
  Forall (fun i => time_aware (item_time i) = false)
         (event_items (present events cs)
          ++ task_items today 0 (stable_sort priority_key (present tasks tl))
          ++ recommendation_items (present recommendations ci)).
Proof.
  repeat (apply Forall_app; split).
  - unfold event_items. apply Forall_forall. intros i Hi.
    apply in_map_iff in Hi. destruct Hi as (e & <- & _). reflexivity.
  - apply task_items_naive.
  - unfold recommendation_items. apply Forall_forall. intros i Hi.
    apply in_map_iff in Hi. destruct Hi as (r & <- & _). simpl.
    destruct (impact_time r); reflexivity.
Qed.

(** The plan is always produced: the appended items, sorted by time. *)
Lemma combine_agent_outputs_eq today d cs tl ci :
  combine_agent_outputs today d cs tl ci
  = Ok (mkConsolidatedDailyPlanOutput d
          (stable_sort plan_key
             (event_items (present events cs)
              ++ task_items today 0 (stable_sort priority_key (present tasks tl))
              ++ recommendation_items (present recommendations ci)))
          (Some (plan_summary_text d cs tl ci))).
Proof.
  unfold combine_agent_outputs. rewrite collected_items_eq. cbn [bind].
  pose proof (collected_items_naive today cs tl ci) as Hn.
  change (sorted time_lt item_time) with sort_plan_by_time.
  rewrite (@sort_plan_by_time_ok false _ Hn). cbn [bind].
  unfold new_ConsolidatedDailyPlanOutput.
  rewrite (@sort_plan_by_time_ok false).
  - cbn [bind]. now rewrite stable_sort_idempotent.
  - eapply Permutation_Forall; [apply stable_sort_perm | exact Hn].
Qed.

(** C7.  Whatever inputs are present, the items of the plan are in ascending
    order of time, and the items of one time are in the order in which they
    were appended: events, then tasks (by priority), then recommendations.
    A plan built from any list of items is sorted in the same way. *)
Theorem plan_sorted_by_time today d cs tl ci :
  (exists p,
     combine_agent_outputs today d cs tl ci = Ok p
     /\ ascending plan_key (plan p)
     /\ forall v,
          with_key plan_key v (plan p)
          = with_key plan_key v (event_items (present events cs))
            ++ with_key plan_key v
                 (task_items today 0 (stable_sort priority_key (present tasks tl)))
            ++ with_key plan_key v (recommendation_items (present recommendations ci)))
  /\ (forall items s p,
        new_ConsolidatedDailyPlanOutput d items s = Ok p ->
        ascending plan_key (plan p)
        /\ Permutation items (plan p)
        /\ forall v, with_key plan_key v (plan p) = with_key plan_key v items).
Proof.
  split.
  - eexists. split; [apply combine_agent_outputs_eq|]. cbn [plan].
    split; [apply stable_sort_asc|].
    intros v. rewrite stable_sort_stable. unfold with_key.
    now rewrite !filter_app.
  - intros items s p H. unfold new_ConsolidatedDailyPlanOutput in H.
    bind_inv H as v Hv. inversion H; subst p; clear H. cbn [plan].
    apply sort_plan_by_time_inv in Hv. subst v.
    split; [apply stable_sort_asc|].
    split; [apply stable_sort_perm|].
    intros v. apply stable_sort_stable.
Qed.

Lemma plan_sorted_by_time_witness :
  exists p,
    new_ConsolidatedDailyPlanOutput sample_day
      [mkPlanItem (time_hm 14 0) task (OfText "call") None;
       mkPlanItem (time_hm 9 0) event (OfText "standup") None;
       mkPlanItem (time_hm 9 0) task (OfText "mail") None] None = Ok p
    /\ ascending plan_key (plan p)
    /\ forall v,
         with_key plan_key v (plan p)
         = with_key plan_key v
             [mkPlanItem (time_hm 14 0) task (OfText "call") None;
              mkPlanItem (time_hm 9 0) event (OfText "standup") None;
              mkPlanItem (time_hm 9 0) task (OfText "mail") None].
Proof.
  assert (E : exists p,
             new_ConsolidatedDailyPlanOutput sample_day
               [mkPlanItem (time_hm 14 0) task (OfText "call") None;
                mkPlanItem (time_hm 9 0) event (OfText "standup") None;
                mkPlanItem (time_hm 9 0) task (OfText "mail") None] None = Ok p)
    by (eexists; vm_compute; reflexivity).
  destruct E as [p E]. exists p. split; [exact E|].
  destruct (proj2 (@plan_sorted_by_time sample_day sample_day None None None)
              _ _ _ E) as (H1 & _ & H3).
  split; [exact H1 | exact H3].
Defined.

(* ------------------------------------------------------------------ *)
(** ** Absent inputs and the summary line *)

Lemma count_items_all k l :
  Forall (fun i => item_type i = k) l -> count_items k l = List.length l.
Proof.
  unfold count_items. induction 1 as [|i l Hi Hl IH]; simpl; [reflexivity|].
  rewrite Hi. destruct k; simpl; now rewrite IH.
Qed.

Lemma count_items_none k k' l :
  item_type_eqb k' k = false ->
  Forall (fun i => item_type i = k') l -> count_items k l = 0%nat.
Proof.
  unfold count_items. intros Hk. induction 1 as [|i l Hi Hl IH]; simpl; [reflexivity|].
  now rewrite Hi, Hk.
Qed.

Lemma count_items_app k l1 l2 :
  count_items k (l1 ++ l2) = (count_items k l1 + count_items k l2)%nat.
Proof. unfold count_items. now rewrite filter_app, length_app. Qed.

Lemma count_items_sorted k l :
  count_items k (stable_sort plan_key l) = count_items k l.
Proof.
  unfold count_items. now rewrite filter_stable_sort, stable_sort_length.
Qed.

Lemma event_items_type l : Forall (fun i => item_type i = event) (event_items l).
Proof.
  apply Forall_forall. intros i Hi. apply in_map_iff in Hi.
  destruct Hi as (e & <- & _). reflexivity.
Qed.

Lemma recommendation_items_type l :
  Forall (fun i => item_type i = recommendation_item) (recommendation_items l).
Proof.
  apply Forall_forall. intros i Hi. apply in_map_iff in Hi.
  destruct Hi as (e & <- & _). reflexivity.
Qed.

Lemma len_or_zero_present {A B : Type} (field : A -> list B) x :
  List.length (present field x) = len_or_zero field x.
Proof. destruct x; reflexivity. Qed.

(** C8.  For every combination of present and absent inputs the plan is
    produced; it holds one item per event, per task and per recommendation
    of the inputs that are present and none for an absent input; its summary
    is "Plan for <date>. Events: <n>. Tasks: <n>. Recommendations: <n>."
    with the sizes of the inputs, zero for an absent one. *)
Theorem plan_counts_and_summary today d cs tl ci :
  exists p,
    combine_agent_outputs today d cs tl ci = Ok p
    /\ plan_date p = d
    /\ plan_summary p
       = Some ("Plan for " ++ strftime_Ymd d
               ++ ". Events: " ++ str_of_nat (len_or_zero events cs)
               ++ ". Tasks: " ++ str_of_nat (len_or_zero tasks tl)
               ++ ". Recommendations: "
               ++ str_of_nat (len_or_zero recommendations ci) ++ ".")%string
    /\ count_items event (plan p) = len_or_zero events cs
    /\ count_items task (plan p) = len_or_zero tasks tl
    /\ count_items recommendation_item (plan p) = len_or_zero recommendations ci
    /\ List.length (plan p)
       = (len_or_zero events cs + len_or_zero tasks tl
          + len_or_zero recommendations ci)%nat
    /\ len_or_zero events (@None CalendarSummaryOutput) = 0%nat
    /\ len_or_zero tasks (@None PrioritizedTaskListOutput) = 0%nat
    /\ len_or_zero recommendations (@None ContextOutput) = 0%nat.
Proof.
  eexists. split; [apply combine_agent_outputs_eq|].
  cbn [plan plan_date plan_summary].
  pose proof (event_items_type (present events cs)) as He.
  pose proof (task_items_type today
                (stable_sort priority_key (present tasks tl)) 0) as Ht.
  pose proof (recommendation_items_type (present recommendations ci)) as Hr.
  assert (Hlt : List.length (task_items today 0
                               (stable_sort priority_key (present tasks tl)))
                = len_or_zero tasks tl).
  { now rewrite task_items_length, stable_sort_length, len_or_zero_present. }
  assert (Hle : List.length (event_items (present events cs))
                = len_or_zero events cs).
  { unfold event_items. now rewrite length_map, len_or_zero_present. }
  assert (Hlr : List.length (recommendation_items (present recommendations ci))
                = len_or_zero recommendations ci).
  { unfold recommendation_items. now rewrite length_map, len_or_zero_present. }
  repeat split.
  - rewrite count_items_sorted, !count_items_app.
    rewrite (count_items_all He),
      (@count_items_none event task _ eq_refl Ht),
      (@count_items_none event recommendation_item _ eq_refl Hr). lia.
  - rewrite count_items_sorted, !count_items_app.
    rewrite (@count_items_none task event _ eq_refl He), (count_items_all Ht),
      (@count_items_none task recommendation_item _ eq_refl Hr). lia.
  - rewrite count_items_sorted, !count_items_app.
    rewrite (@count_items_none recommendation_item event _ eq_refl He),
      (@count_items_none recommendation_item task _ eq_refl Ht),
      (count_items_all Hr). lia.
  - rewrite stable_sort_length, !length_app. lia.
Qed.

(** The scenario of the specification: two events, no task, no
    recommendation. *)
Example two_events_only :
  exists p,
    combine_agent_outputs sample_day sample_day
      (Some (mkCalendarSummaryOutput sample_day
               [meeting "A" 9 0 10 0 None; meeting "B" 13 0 14 0 None] [] []))
      None None = Ok p
    /\ List.length (plan p) = 2%nat
    /\ plan_summary p
       = Some "Plan for 2024-01-01. Events: 2. Tasks: 0. Recommendations: 0."%string.
Proof. by_running. Qed.

Example nothing_at_all :
  exists p,
    combine_agent_outputs sample_day sample_day None None None = Ok p
    /\ plan p = []
    /\ plan_summary p
       = Some "Plan for 2024-01-01. Events: 0. Tasks: 0. Recommendations: 0."%string.
Proof. by_running. Qed.

(* ------------------------------------------------------------------ *)
(** ** The placeholder times of the tasks *)

Lemma priority_key_values t :
  priority_key t = match priority t with
                   | urgent => 0 | high => 1 | medium => 2 | low => 3
                   end.
Proof. unfold priority_key. destruct (priority t); reflexivity. Qed.

(** A priority that is not one of the four literals sorts last. *)
Lemma unknown_priority_sorts_last k :
  k <> "urgent"%string -> k <> "high"%string -> k <> "medium"%string ->
  k <> "low"%string ->
  dict_get priority_order k 99 = 99
  /\ forall t, priority_key t < dict_get priority_order k 99.
Proof.
  intros H1 H2 H3 H4.
  assert (E : dict_get priority_order k 99 = 99).
  { unfold priority_order, dict_get.
    repeat match goal with
           | |- context [String.eqb ?a k] =>
               destruct (String.eqb_spec a k); [congruence|]
           end.
    reflexivity. }
  split; [exact E|].
  intros t. rewrite E, priority_key_values. destruct (priority t); lia.
Qed.

(** The tasks are visited in priority order, tasks of one priority in the
    order of the input. *)
Lemma tasks_by_priority l :
  ascending priority_key (stable_sort priority_key l)
  /\ Permutation l (stable_sort priority_key l)
  /\ forall v, with_key priority_key v (stable_sort priority_key l)
               = with_key priority_key v l.
Proof.
  split; [apply stable_sort_asc|]. split; [apply stable_sort_perm|].
  intros v. apply stable_sort_stable.
Qed.

(** The time of the task of index [time_idx]: slot [time_idx mod 4] of the
    rotation plus [time_idx] minutes, as a time of day. *)
Lemma assigned_time_eq today time_idx :
  assigned_time today time_idx
  = mkTime ((tod (nth (time_idx mod 4) task_times (time_hm 0 0))
             + Z.of_nat time_idx * usec_per_minute) mod usec_per_day) None.
Proof.
  unfold assigned_time, dt_time, dt_add, combine, minutes. cbn [wall List.length task_times].
  f_equal.
  rewrite <- Z.add_assoc, Z.add_comm.
  apply Z.mod_add. discriminate.
Qed.

Lemma assigned_time_today today today' time_idx :
  assigned_time today time_idx = assigned_time today' time_idx.
Proof. now rewrite !assigned_time_eq. Qed.

Lemma task_items_today today today' : forall l n,
  task_items today n l = task_items today' n l.
Proof.
  induction l as [|t l IH]; intros n; simpl; [reflexivity|].
  now rewrite IH, (assigned_time_today today today').
Qed.

Example first_rotation :
  map (fun i => tod (item_time i) / usec_per_minute)
      (task_items sample_day 0 (numbered_tasks 6))
  = [9 * 60; 11 * 60 + 1; 14 * 60 + 2; 16 * 60 + 3; 9 * 60 + 4; 11 * 60 + 5].
Proof. vm_compute. reflexivity. Qed.

(** The same in minutes: the rotation is 540, 660, 840, 960 minutes after
    midnight, and the sum wraps at 1440 minutes. *)
Lemma assigned_time_minutes today i :
  assigned_time today i
  = mkTime (((nth (i mod 4) [540; 660; 840; 960] 0 + Z.of_nat i) mod 1440)
            * usec_per_minute) None.
Proof.
  rewrite assigned_time_eq. f_equal.
  assert (E : tod (nth (i mod 4) task_times (time_hm 0 0))
              = nth (i mod 4) [540; 660; 840; 960] 0 * usec_per_minute).
  { destruct (i mod 4)%nat as [|[|[|[|[|r]]]]]; reflexivity. }
  rewrite E, <- Z.mul_add_distr_r.
  change usec_per_day with (1440 * usec_per_minute).
  apply Z.mul_mod_distr_r; discriminate.
Qed.

(** The first 1440 tasks are given pairwise different times. *)
Lemma assigned_times_differ_within_a_day today i j :
  (i < 1440)%nat -> (j < 1440)%nat -> i <> j ->
  assigned_time today i <> assigned_time today j.
Proof.
  intros Hi Hj Hne. rewrite !assigned_time_minutes.
  pose proof (Nat.mod_upper_bound i 4 ltac:(discriminate)) as Bi.
  pose proof (Nat.mod_upper_bound j 4 ltac:(discriminate)) as Bj.
  pose proof (Nat.div_mod_eq i 4) as Ei.
  pose proof (Nat.div_mod_eq j 4) as Ej.
  set (ri := (i mod 4)%nat) in *. set (rj := (j mod 4)%nat) in *.
  set (qi := (i / 4)%nat) in *. set (qj := (j / 4)%nat) in *.
  clearbody ri rj qi qj.
  intros H. injection H as H. apply Hne. clear Hne.
  apply Z.mul_cancel_r in H; [|discriminate].
  destruct ri as [|[|[|[|ri]]]]; try lia;
  destruct rj as [|[|[|[|rj]]]]; try lia;
  cbn [nth] in H; Z.div_mod_to_equations; lia.
Qed.

(** C3: the code against the claim.  With 1441 tasks the task of index 1440
    is given 09:00, the time of the task of index 0: the offset of 1440
    minutes is a whole day and [.time()] drops it. *)
Theorem task_times_collide_after_a_day today d :
  exists p,
    combine_agent_outputs today d None
      (Some (mkPrioritizedTaskListOutput (numbered_tasks 1441))) None = Ok p
    /\ with_key plan_key (time_instant (time_hm 9 0)) (plan p)
       = [mkPlanItem (time_hm 9 0) task (OfTask (numbered_task 0)) (Some medium);
          mkPlanItem (time_hm 9 0) task (OfTask (numbered_task 1440)) (Some medium)]
    /\ numbered_task 0 <> numbered_task 1440.
Proof.
  eexists. split; [apply combine_agent_outputs_eq|]. cbn [plan].
  rewrite (task_items_today today sample_day).
  split; [vm_compute; reflexivity|].
  vm_compute. intros H. discriminate H.
Qed.

(* ------------------------------------------------------------------ *)
(** ** More on the analysis of a day *)

(** The steps of a successful analysis. *)
Lemma analyze_schedule_run d l s :
  analyze_schedule d l = Ok s ->
  summary_date s = d
  /\ sort_events l = Ok (events s)
  /\ (exists cur fs0,
        free_slot_loop (first_tzinfo (events s))
          (combine d work_start (first_tzinfo (events s)))
          (combine d work_end (first_tzinfo (events s)))
          (events s) (combine d work_start (first_tzinfo (events s)), [])
        = Ok (cur, fs0)
        /\ trailing_slot (combine d work_end (first_tzinfo (events s))) (cur, fs0)
           = Ok (free_slots s))
  /\ conflicts_outer (events s) [] = Ok (conflicts s).
Proof.
  unfold analyze_schedule. intros H.
  bind_inv H as es Hes. bind_inv H as st Hst. bind_inv H as fs Hfs.
  bind_inv H as cs Hcs. inversion H; subst s; clear H. cbn.
  destruct st as [cur fs0]. repeat split; eauto.
Qed.

(** X1.  The events of the summary are the events of the input in ascending
    order of start, events that start together in the order of the input; the
    summary carries the date that was asked for. *)
Theorem events_returned_in_start_order d l s :
  analyze_schedule d l = Ok s ->
  summary_date s = d
  /\ Permutation l (events s)
  /\ ascending (fun e => instant (start_time e)) (events s)
  /\ forall v, with_key (fun e => instant (start_time e)) v (events s)
               = with_key (fun e => instant (start_time e)) v l.
Proof.
  intros H. destruct (analyze_schedule_run _ _ H) as (Hd & Hs & _).
  apply sort_events_inv in Hs. destruct Hs as (Hs & _).
  split; [exact Hd|]. rewrite Hs.
  split; [apply stable_sort_perm|]. split; [apply stable_sort_asc|].
  intros v. apply stable_sort_stable.
Qed.

Lemma events_returned_in_start_order_witness :
  exists s,
    analyze_schedule sample_day
      [meeting "C" 13 0 14 0 None; meeting "A" 9 0 10 0 None;
       meeting "B" 9 0 9 30 None] = Ok s
    /\ summary_date s = sample_day
    /\ ascending (fun e => instant (start_time e)) (events s).
Proof.
  assert (E : exists s,
             analyze_schedule sample_day
               [meeting "C" 13 0 14 0 None; meeting "A" 9 0 10 0 None;
                meeting "B" 9 0 9 30 None] = Ok s)
    by (eexists; vm_compute; reflexivity).
  destruct E as [s E]. exists s. split; [exact E|].
  destruct (@events_returned_in_start_order _ _ _ E) as (H1 & _ & H3 & _).
  split; [exact H1 | exact H3].
Defined.

Section SlotCounting.
Variables (d : date) (tz : option Z).

Local Abbreviation ws := (combine d work_start tz).
Local Abbreviation we := (combine d work_end tz).
Local Abbreviation day_aware := (match tz with Some _ => true | None => false end).

Lemma free_slot_loop_length : forall l cur fs cur' fs',
  aware cur = day_aware ->
  free_slot_loop tz ws we l (cur, fs) = Ok (cur', fs') ->
  (List.length fs' <= List.length fs + List.length l)%nat.
Proof.
  induction l as [|e l IH]; cbn [free_slot_loop]; intros cur fs cur' fs' Hcur H.
  - inversion H; subst. simpl. lia.
  - bind_inv H as st Hst. destruct st as [c1 f1].
    pose proof (@free_slot_step_inv d tz cur fs e c1 f1 Hcur Hst) as (Hc1 & Hstep).
    specialize (IH _ _ _ _ Hc1 H). cbn [List.length].
    assert (List.length f1 <= S (List.length fs))%nat; [|lia].
    destruct Hstep as [(_ & _ & ->)|(_ & _ & [(_ & ->)|[(_ & _ & ->)|(_ & _ & f & -> & _)]])];
      rewrite ?length_app; simpl; lia.
Qed.

Lemma trailing_slot_length cur fs fs' :
  trailing_slot we (cur, fs) = Ok fs' ->
  (List.length fs' <= S (List.length fs))%nat.
Proof.
  unfold trailing_slot. intros H. bind_inv H as after Ha.
  destruct after.
  - apply emit_slot_inv in H. destruct H as (_ & [(_ & ->)|(_ & ->)]);
      rewrite ?length_app; simpl; lia.
  - inversion H; subst. lia.
Qed.

(** Events that are empty after clamping leave the loop where it is. *)
Lemma free_slot_loop_idle : forall l cur fs cur' fs',
  aware cur = day_aware ->
  Forall (fun e => clamped_end d tz e <= clamped_start d tz e) l ->
  free_slot_loop tz ws we l (cur, fs) = Ok (cur', fs') ->
  cur' = cur /\ fs' = fs.
Proof.
  induction l as [|e l IH]; cbn [free_slot_loop]; intros cur fs cur' fs' Hcur Hl H.
  - inversion H; subst. auto.
  - inversion_clear Hl as [|? ? He Hl'].
    bind_inv H as st Hst. destruct st as [c1 f1].
    pose proof (@free_slot_step_inv d tz cur fs e c1 f1 Hcur Hst) as (Hc1 & Hstep).
    destruct Hstep as [(_ & -> & ->)|(Hlt & _)]; [|lia].
    now apply IH.
Qed.

Lemma trailing_slot_whole_day fs' :
  trailing_slot we (ws, []) = Ok fs' -> fs' = [whole_day_slot d tz].
Proof.
  unfold trailing_slot. intros H. bind_inv H as after Ha.
  apply dt_lt_inv in Ha. destruct Ha as (_ & ->).
  pose proof (window_length d tz) as Hlen. unfold window_end, window_start in Hlen.
  assert (Hh : usec_per_hour = 3600000000) by reflexivity.
  destruct (Z.ltb_spec (instant ws) (instant we)) as [_|Hge]; [|lia].
  apply emit_slot_inv in H. destruct H as (_ & [(Hshort & _)|(_ & ->)]).
  - exfalso. assert (min_free_duration = 900000000) by reflexivity. lia.
  - simpl. unfold new_free_slot, whole_day_slot. do 2 f_equal.
    replace (instant we - instant ws) with (8 * usec_per_hour) by lia.
    reflexivity.
Qed.
End SlotCounting.

(** X2.  The analysis reports at most one free slot more than there are
    events. *)
Theorem free_slots_at_most_events_plus_one d l s :
  analyze_schedule d l = Ok s ->
  (List.length (free_slots s) <= List.length l + 1)%nat.
Proof.
  intros H. destruct (analyze_schedule_run _ _ H) as (_ & Hs & (cur & fs0 & Hloop & Htrail) & _).
  apply free_slot_loop_length in Hloop; [|apply aware_combine].
  apply trailing_slot_length in Htrail.
  apply sort_events_inv in Hs. destruct Hs as (Hs & _).
  rewrite Hs, stable_sort_length in Hloop. simpl in Hloop. lia.
Qed.

Lemma free_slots_at_most_events_plus_one_witness :
  exists s,
    analyze_schedule sample_day
      [meeting "A" 10 0 11 0 None; meeting "B" 13 0 14 0 None] = Ok s
    /\ (List.length (free_slots s) <= 2 + 1)%nat.
Proof.
  assert (E : exists s,
             analyze_schedule sample_day
               [meeting "A" 10 0 11 0 None; meeting "B" 13 0 14 0 None] = Ok s)
    by (eexists; vm_compute; reflexivity).
  destruct E as [s E]. exists s. split; [exact E|].
  exact (@free_slots_at_most_events_plus_one _ _ _ E).
Defined.

Lemma total_slot_length_bound hi : forall fs lo,
  lo <= hi ->
  slots_in_order fs ->
  Forall (fun f => lo <= slot_start f /\ slot_end f <= hi
                   /\ slot_start f <= slot_end f) fs ->
  total_slot_length fs <= hi - lo.
Proof.
  induction fs as [|f fs IH]; intros lo Hlo Hord Hin; simpl; [lia|].
  inversion_clear Hin as [|? ? (H1 & H2 & H3) Hrest].
  unfold slots_in_order in Hord.
  inversion Hord as [|? ? Hord' Hnext]; subst.
  assert (Hfs : total_slot_length fs <= hi - slot_end f).
  { apply IH; [lia | exact Hord' |].
    rewrite Forall_forall in *. intros g Hg.
    destruct (Hrest g Hg) as (G1 & G2 & G3). specialize (Hnext g Hg). lia. }
  lia.
Qed.

Lemma total_free_minutes_length d tz fs :
  Forall (slot_ok d tz) fs ->
  total_free_minutes fs * usec_per_minute <= total_slot_length fs.
Proof.
  induction 1 as [|f fs (H1 & H2 & H3 & H4 & _) Hfs IH]; simpl; [lia|].
  assert (Hpos : 0 < usec_per_minute) by reflexivity.
  pose proof (Z.mul_div_le (slot_end f - slot_start f) usec_per_minute Hpos).
  rewrite H4. lia.
Qed.

(** X3.  The free minutes of a day never add up to more than the eight
    working hours. *)
Theorem free_minutes_within_working_hours d l s :
  analyze_schedule d l = Ok s ->
  0 <= total_free_minutes (free_slots s) <= 480.
Proof.
  intros H.
  destruct (analyze_schedule_free_slots _ _ H) as (_ & Hord & Hok & _).
  set (tz := first_tzinfo (events s)) in *.
  pose proof (total_free_minutes_length Hok) as Hmin.
  pose proof (window_length d tz) as Hlen.
  assert (Hh : usec_per_hour = 60 * usec_per_minute) by reflexivity.
  assert (Hm : usec_per_minute = 60000000) by reflexivity.
  assert (Hd : min_free_duration = 15 * usec_per_minute) by reflexivity.
  assert (Hlong : total_slot_length (free_slots s)
                  <= window_end d tz - window_start d tz).
  { apply total_slot_length_bound; [lia | exact Hord |].
    eapply Forall_impl; [|exact Hok]. intros f (H1 & H2 & H3 & _). lia. }
  split; [|lia].
  clear - Hok Hm. induction Hok as [|f fs (H1 & H2 & H3 & H4 & _) Hfs IH]; simpl; [lia|].
  assert (0 <= duration_minutes f); [|lia].
  rewrite H4. apply Z.div_pos; [|lia].
  assert (min_free_duration = 900000000) by reflexivity. lia.
Qed.

Lemma free_minutes_within_working_hours_witness :
  exists s,
    analyze_schedule sample_day
      [meeting "A" 10 0 11 0 None; meeting "B" 13 0 14 0 None] = Ok s
    /\ 0 <= total_free_minutes (free_slots s) <= 480.
Proof.
  assert (E : exists s,
             analyze_schedule sample_day
               [meeting "A" 10 0 11 0 None; meeting "B" 13 0 14 0 None] = Ok s)
    by (eexists; vm_compute; reflexivity).
  destruct E as [s E]. exists s. split; [exact E|].
  exact (@free_minutes_within_working_hours _ _ _ E).
Defined.

(** X4.  When every event is empty after clamping to the working hours (no
    event at all, or only events outside 09:00-17:00), the summary has one
    free slot: the working hours, 480 minutes, in the zone of the first
    event. *)
Theorem idle_day_is_one_free_slot d l s :
  analyze_schedule d l = Ok s ->
  Forall (fun e => clamped_end d (first_tzinfo (events s)) e
                   <= clamped_start d (first_tzinfo (events s)) e) (events s) ->
  free_slots s = [whole_day_slot d (first_tzinfo (events s))].
Proof.
  intros H Hidle.
  destruct (analyze_schedule_run _ _ H) as (_ & _ & (cur & fs0 & Hloop & Htrail) & _).
  apply free_slot_loop_idle in Hloop; [|apply aware_combine | exact Hidle].
  destruct Hloop as [-> ->].
  now apply trailing_slot_whole_day.
Qed.

Lemma idle_day_is_one_free_slot_witness :
  exists s,
    analyze_schedule sample_day
      [meeting "dinner" 19 0 21 0 None; meeting "run" 6 0 7 0 None] = Ok s
    /\ free_slots s = [whole_day_slot sample_day (first_tzinfo (events s))].
Proof.
  assert (E : exists s,
             analyze_schedule sample_day
               [meeting "dinner" 19 0 21 0 None; meeting "run" 6 0 7 0 None] = Ok s
             /\ Forall (fun e => clamped_end sample_day (first_tzinfo (events s)) e
                                 <= clamped_start sample_day (first_tzinfo (events s)) e)
                       (events s)).
  { eexists. split; [vm_compute; reflexivity|].
    repeat constructor; vm_compute; intros H; discriminate H. }
  destruct E as (s & E & Hidle). exists s. split; [exact E|].
  exact (@idle_day_is_one_free_slot _ _ _ E Hidle).
Defined.

(** X5.  When one event fills the working hours there is no free slot,
    whatever the other events are. *)
Theorem booked_day_has_no_free_slot d l s e :
  analyze_schedule d l = Ok s ->
  In e l ->
  fills_working_hours d (first_tzinfo (events s)) e ->
  free_slots s = [].
Proof.
  intros H He (Hs & Hf).
  destruct (analyze_schedule_free_slots _ _ H) as (Hev & _ & Hok & Hdis & _).
  assert (He' : In e (events s)).
  { rewrite Hev. eapply Permutation_in; [apply stable_sort_perm | exact He]. }
  destruct (free_slots s) as [|f fs] eqn:E; [reflexivity|]. exfalso.
  inversion_clear Hok as [|? ? (H1 & H2 & H3 & _) _].
  pose proof min_free_duration_pos.
  apply (Hdis f e (slot_start f)); [now left | exact He' | |].
  - unfold in_slot. lia.
  - unfold in_event. lia.
Qed.

Lemma booked_day_has_no_free_slot_witness :
  exists s,
    analyze_schedule sample_day
      [meeting "A" 10 0 11 0 None; meeting "workshop" 8 0 18 0 None] = Ok s
    /\ free_slots s = [].
Proof.
  assert (E : exists s,
             analyze_schedule sample_day
               [meeting "A" 10 0 11 0 None; meeting "workshop" 8 0 18 0 None] = Ok s
             /\ fills_working_hours sample_day (first_tzinfo (events s))
                  (meeting "workshop" 8 0 18 0 None)).
  { eexists. split; [vm_compute; reflexivity|]. split; vm_compute; reflexivity. }
  destruct E as (s & E & Hf). exists s. split; [exact E|].
  apply (@booked_day_has_no_free_slot sample_day _ s (meeting "workshop" 8 0 18 0 None) E);
    [simpl; auto | exact Hf].
Defined.

Lemma conflicts_outer_ordered (k : CalendarEvent -> Z) : forall l cs cs',
  ascending k l ->
  conflicts_outer l cs = Ok cs' ->
  exists extra,
    cs' = cs ++ extra
    /\ Forall (fun c => exists x y, conflicting_events c = [x; y] /\ k x <= k y) extra.
Proof.
  induction l as [|x l IH]; cbn [conflicts_outer]; intros cs cs' Hasc H.
  - inversion H; subst. exists []. rewrite app_nil_r. auto.
  - bind_inv H as cs1 H1.
    apply conflicts_inner_inv in H1. destruct H1 as (e1 & -> & Hex1 & _).
    apply IH in H; [|eapply asc_tail; eauto].
    destruct H as (e2 & -> & Hex2).
    exists (e1 ++ e2). rewrite app_assoc. split; [reflexivity|].
    apply Forall_app. split; [|exact Hex2].
    pose proof (asc_head_le Hasc) as Hle. rewrite Forall_forall in Hle.
    eapply Forall_impl; [|exact Hex1]. simpl.
    intros c (y & Hy & Hc & _). exists x, y. auto.
Qed.

(** X6.  Every conflict lists two events, the one that starts first (or at
    the same instant) before the other. *)
Theorem conflict_lists_earlier_event_first d l s :
  analyze_schedule d l = Ok s ->
  Forall (fun c => exists x y,
            conflicting_events c = [x; y]
            /\ instant (start_time x) <= instant (start_time y))
         (conflicts s).
Proof.
  intros H. destruct (analyze_schedule_run _ _ H) as (_ & Hs & _ & Hc).
  apply sort_events_inv in Hs. destruct Hs as (Hs & _).
  apply (@conflicts_outer_ordered (fun e => instant (start_time e))) in Hc.
  - destruct Hc as (extra & E & Hex). simpl in E. now rewrite E.
  - rewrite Hs. apply stable_sort_asc.
Qed.

Lemma conflict_lists_earlier_event_first_witness :
  exists s,
    analyze_schedule sample_day
      [meeting "B" 9 30 10 30 None; meeting "A" 9 0 10 0 None] = Ok s
    /\ Forall (fun c => exists x y,
                 conflicting_events c = [x; y]
                 /\ instant (start_time x) <= instant (start_time y))
              (conflicts s).
Proof.
  assert (E : exists s,
             analyze_schedule sample_day
               [meeting "B" 9 30 10 30 None; meeting "A" 9 0 10 0 None] = Ok s)
    by (eexists; vm_compute; reflexivity).
  destruct E as [s E]. exists s. split; [exact E|].
  exact (@conflict_lists_earlier_event_first _ _ _ E).
Defined.

(* ------------------------------------------------------------------ *)
(** ** When the analysis raises *)





Section HalfAwareDay.
Variables (d : date) (tz : Z).

Local Abbreviation ws := (combine d work_start (Some tz)).
Local Abbreviation we := (combine d work_end (Some tz)).

End HalfAwareDay.



(* ------------------------------------------------------------------ *)
(** ** More on the consolidated plan *)

Lemma task_items_times today : forall l n,
  Forall (fun i => item_type i = task
                   /\ exists idx, (n <= idx < n + List.length l)%nat
                                  /\ item_time i = assigned_time today idx)
         (task_items today n l).
Proof.
  induction l as [|t l IH]; intros n; cbn [task_items List.length]; constructor.
  - split; [reflexivity|]. exists n. split; [lia | reflexivity].
  - eapply Forall_impl; [|apply (IH (S n))]. simpl.
    intros i (Ht & idx & Hidx & Hi). split; [exact Ht|].
    exists idx. split; [lia | exact Hi].
Qed.

(** Before index 480 the minutes added to a slot stay within the day. *)
Lemma assigned_time_no_wrap today idx :
  (idx < 480)%nat ->
  tod (time_hm 9 0) <= tod (assigned_time today idx) < usec_per_day
  /\ time_tz (assigned_time today idx) = None.
Proof.
  intros Hidx. rewrite assigned_time_minutes. cbn [tod time_tz].
  split; [|reflexivity].
  assert (Hslot : 540 <= nth (idx mod 4) [540; 660; 840; 960] 0 <= 960).
  { pose proof (Nat.mod_upper_bound idx 4 ltac:(discriminate)) as B.
    destruct (idx mod 4)%nat as [|[|[|[|r]]]]; simpl; lia. }
  rewrite Z.mod_small by lia.
  change (tod (time_hm 9 0)) with (540 * usec_per_minute).
  change usec_per_day with (1440 * usec_per_minute).
  assert (0 < usec_per_minute) by reflexivity. nia.
Qed.

(** X8.  With at most 480 tasks every task of the plan is placed between
    09:00 and midnight of the same day: no placeholder time wraps, and a
    recommendation without impact time (07:00) precedes every task. *)
Theorem tasks_placed_from_nine today d cs tl ci p :
  (len_or_zero tasks tl <= 480)%nat ->
  combine_agent_outputs today d cs tl ci = Ok p ->
  Forall (fun i => item_type i = task ->
                   tod (time_hm 9 0) <= tod (item_time i) < usec_per_day
                   /\ time_instant (time_hm 7 0) < plan_key i)
         (plan p).
Proof.
  intros Hlen H. rewrite combine_agent_outputs_eq in H. inversion H; subst p; clear H.
  cbn [plan]. eapply Permutation_Forall; [apply stable_sort_perm|].
  repeat (apply Forall_app; split).
  - eapply Forall_impl; [|apply event_items_type]. simpl. intros i Hi Ht. congruence.
  - eapply Forall_impl; [|apply task_items_times]. simpl.
    intros i (_ & idx & Hidx & Hi) _.
    rewrite stable_sort_length, len_or_zero_present in Hidx.
    destruct (@assigned_time_no_wrap today idx) as (Hb & Htz); [lia|].
    unfold plan_key, time_instant at 2. rewrite Hi, Htz. split; [exact Hb|].
    assert (time_instant (time_hm 7 0) < tod (time_hm 9 0)) by reflexivity. lia.
  - eapply Forall_impl; [|apply recommendation_items_type]. simpl.
    intros i Hi Ht. congruence.
Qed.

Lemma tasks_placed_from_nine_witness :
  exists p,
    combine_agent_outputs sample_day sample_day None
      (Some (mkPrioritizedTaskListOutput (numbered_tasks 5))) None = Ok p
    /\ Forall (fun i => item_type i = task ->
                        tod (time_hm 9 0) <= tod (item_time i) < usec_per_day
                        /\ time_instant (time_hm 7 0) < plan_key i)
              (plan p).
Proof.
  assert (E : exists p,
             combine_agent_outputs sample_day sample_day None
               (Some (mkPrioritizedTaskListOutput (numbered_tasks 5))) None = Ok p)
    by (eexists; vm_compute; reflexivity).
  destruct E as [p E]. exists p. split; [exact E|].
  apply (@tasks_placed_from_nine sample_day sample_day None
           (Some (mkPrioritizedTaskListOutput (numbered_tasks 5))) None p);
    [apply Nat.leb_le; reflexivity | exact E].
Defined.

Lemma assigned_time_first today : assigned_time today 0 = time_hm 9 0.
Proof. rewrite assigned_time_minutes. reflexivity. Qed.

(** X9.  When there are tasks, the plan holds at 09:00 a task that no other
    task outranks: the first task of the best priority in the input. *)
Theorem best_task_at_nine today d cs ts ci p :
  ts <> [] ->
  combine_agent_outputs today d cs (Some (mkPrioritizedTaskListOutput ts)) ci = Ok p ->
  exists t,
    In t ts
    /\ (forall t', In t' ts -> priority_key t <= priority_key t')
    /\ In (mkPlanItem (time_hm 9 0) task (OfTask t) (Some (priority t))) (plan p)
    /\ with_key priority_key (priority_key t) ts
       = t :: tl (with_key priority_key (priority_key t) ts).
Proof.
  intros Hne H. rewrite combine_agent_outputs_eq in H. inversion H; subst p; clear H.
  cbn [plan present tasks].
  pose proof (stable_sort_perm priority_key ts) as Hp.
  pose proof (stable_sort_asc priority_key ts) as Hasc.
  pose proof (stable_sort_stable priority_key) as Hst.
  destruct (stable_sort priority_key ts) as [|t rest] eqn:E.
  { apply Permutation_sym, Permutation_nil in Hp. contradiction. }
  exists t.
  assert (Hin : In t ts) by (eapply Permutation_in; [symmetry; exact Hp | now left]).
  split; [exact Hin|]. split; [|split].
  - intros t' Ht'.
    assert (Ht'' : In t' (t :: rest)) by (eapply Permutation_in; eauto).
    destruct Ht'' as [<-|Ht'']; [lia|].
    pose proof (asc_head_le Hasc) as Hle. rewrite Forall_forall in Hle.
    now apply Hle.
  - eapply Permutation_in; [apply stable_sort_perm|].
    apply in_or_app. right. apply in_or_app. left.
    cbn [task_items]. rewrite assigned_time_first. now left.
  - specialize (Hst (priority_key t) ts). rewrite E in Hst. rewrite <- Hst.
    unfold with_key. cbn [filter]. rewrite Z.eqb_refl. reflexivity.
Qed.

Lemma best_task_at_nine_witness :
  exists p t,
    combine_agent_outputs sample_day sample_day None
      (Some (mkPrioritizedTaskListOutput
               [mkEmailTask "report" low None None;
                mkEmailTask "call back" urgent None None;
                mkEmailTask "invoice" urgent None None])) None = Ok p
    /\ In (mkPlanItem (time_hm 9 0) task (OfTask t) (Some (priority t))) (plan p).
Proof.
  assert (E : exists p,
             combine_agent_outputs sample_day sample_day None
               (Some (mkPrioritizedTaskListOutput
                        [mkEmailTask "report" low None None;
                         mkEmailTask "call back" urgent None None;
                         mkEmailTask "invoice" urgent None None])) None = Ok p)
    by (eexists; vm_compute; reflexivity).
  destruct E as [p E]. exists p.
  assert (Hne : [mkEmailTask "report" low None None;
                 mkEmailTask "call back" urgent None None;
                 mkEmailTask "invoice" urgent None None] <> [])
    by discriminate.
  destruct (@best_task_at_nine sample_day sample_day None _ None p Hne E)
    as (t & _ & _ & Ht & _).
  exists t. split; [exact E | exact Ht].
Defined.

(** X10.  Building a plan from the items of a plan that was built changes
    nothing: the validator leaves a sorted list as it is. *)
Theorem validator_keeps_a_built_plan d items s p d' s' :
  new_ConsolidatedDailyPlanOutput d items s = Ok p ->
  new_ConsolidatedDailyPlanOutput d' (plan p) s'
  = Ok (mkConsolidatedDailyPlanOutput d' (plan p) s').
Proof.
  unfold new_ConsolidatedDailyPlanOutput. intros H.
  bind_inv H as v Hv. inversion H; subst p; clear H. cbn [plan].
  pose proof Hv as Hv'.
  apply (@sorted_inv _ _ time_lt item_time time_instant time_aware time_lt_spec)
    in Hv'.
  destruct Hv' as (-> & b & Hb).
  rewrite (@sort_plan_by_time_ok b).
  - cbn [bind]. now rewrite stable_sort_idempotent.
  - eapply Permutation_Forall; [apply stable_sort_perm | exact Hb].
Qed.

Lemma validator_keeps_a_built_plan_witness :
  exists p,
    new_ConsolidatedDailyPlanOutput sample_day
      [mkPlanItem (time_hm 14 0) task (OfText "call") None;
       mkPlanItem (time_hm 9 0) event (OfText "standup") None] None = Ok p
    /\ new_ConsolidatedDailyPlanOutput sample_day (plan p) None
       = Ok (mkConsolidatedDailyPlanOutput sample_day (plan p) None).
Proof.
  assert (E : exists p,
             new_ConsolidatedDailyPlanOutput sample_day
               [mkPlanItem (time_hm 14 0) task (OfText "call") None;
                mkPlanItem (time_hm 9 0) event (OfText "standup") None] None = Ok p)
    by (eexists; vm_compute; reflexivity).
  destruct E as [p E]. exists p. split; [exact E|].
  exact (@validator_keeps_a_built_plan _ _ _ _ sample_day None E).
Defined.

(** X11.  A plan can be built from a list of items exactly when the times of
    the items are all naive or all aware; otherwise the validator raises
    [TypeError]. *)
Theorem validator_raises_on_mixed_times d items s :
  ((exists p, new_ConsolidatedDailyPlanOutput d items s = Ok p)
   <-> exists b, Forall (fun i => time_aware (item_time i) = b) items)
  /\ (new_ConsolidatedDailyPlanOutput d items s = Raise TypeError
      <-> ~ exists b, Forall (fun i => time_aware (item_time i) = b) items).
Proof.
  assert (Hiff : (exists p, new_ConsolidatedDailyPlanOutput d items s = Ok p)
                 <-> exists b, Forall (fun i => time_aware (item_time i) = b) items).
  { unfold new_ConsolidatedDailyPlanOutput. split.
    - intros (p & H). bind_inv H as v Hv.
      apply (@sorted_inv _ _ time_lt item_time time_instant time_aware time_lt_spec)
        in Hv.
      destruct Hv as (_ & b & Hb). eauto.
    - intros (b & Hb). rewrite (sort_plan_by_time_ok Hb). cbn [bind]. eauto. }
  split; [exact Hiff|]. rewrite <- Hiff. split.
  - intros H (p & Hp). congruence.
  - intros H. destruct (new_ConsolidatedDailyPlanOutput d items s) as [p|e] eqn:E.
    + exfalso. apply H. eauto.
    + now rewrite (exn_unique e).
Qed.
(* ------------------------------------------------------------------ *)
(** ** Traffic on the way *)

(** Rounding to the nearest minute, a half to the even one: when the result
    exceeds a bound. *)
Lemma round_div_gt n k :
  k < round_div n 60 <-> 60 * k + 30 + (if Z.even k then 1 else 0) <= n.
Proof.
  unfold round_div.
  pose proof (Z.div_mod n 60 ltac:(lia)) as Hn.
  pose proof (Z.mod_pos_bound n 60 ltac:(lia)) as Hr.
  set (q := n / 60) in *. set (r := n mod 60) in *.
  destruct (2 * r <? 60) eqn:E1; [apply Z.ltb_lt in E1|apply Z.ltb_ge in E1].
  - destruct (Z.even k); lia.
  - destruct (60 <? 2 * r) eqn:E2; [apply Z.ltb_lt in E2|apply Z.ltb_ge in E2].
    + destruct (Z.even k); lia.
    + destruct (Z.even q) eqn:Eq, (Z.even k) eqn:Ek;
        try lia;
        assert (k <> q) by (intros ->; congruence); lia.
Qed.


(** The delay, the condition and the advice when both durations are known. *)
Lemma traffic_assessment_known free busy_ :
  exists m advice,
    traffic_assessment (Some free) (Some busy_)
    = (Some m,
       (if 1830 <? busy_ - free then severe
        else if 930 <=? busy_ - free then heavy
        else if 330 <=? busy_ - free then moderate
        else light),
       Some advice)
    /\ m = Z.max 0 (round_div (busy_ - free) 60)
    /\ (5 < m <-> 330 <= busy_ - free).
Proof.
  unfold traffic_assessment.
  set (n := busy_ - free). set (m := Z.max 0 (round_div n 60)). cbv zeta.
  assert (H30 : 30 < m <-> 1830 < n).
  { unfold m. pose proof (round_div_gt n 30) as H. cbn in H. lia. }
  assert (H15 : 15 < m <-> 930 <= n).
  { unfold m. pose proof (round_div_gt n 15) as H. cbn in H. lia. }
  assert (H5 : 5 < m <-> 330 <= n).
  { unfold m. pose proof (round_div_gt n 5) as H. cbn in H. lia. }
  destruct (30 <? m) eqn:E30; [apply Z.ltb_lt in E30|apply Z.ltb_ge in E30].
  { eexists _, _. split; [|split; [reflexivity | exact H5]].
    replace (1830 <? n) with true by (symmetry; apply Z.ltb_lt; lia).
    reflexivity. }
  replace (1830 <? n) with false by (symmetry; apply Z.ltb_ge; lia).
  destruct (15 <? m) eqn:E15; [apply Z.ltb_lt in E15|apply Z.ltb_ge in E15].
  { eexists _, _. split; [|split; [reflexivity | exact H5]].
    replace (930 <=? n) with true by (symmetry; apply Z.leb_le; lia).
    reflexivity. }
  replace (930 <=? n) with false by (symmetry; apply Z.leb_gt; lia).
  destruct (5 <? m) eqn:E5; [apply Z.ltb_lt in E5|apply Z.ltb_ge in E5].
  { eexists _, _. split; [|split; [reflexivity | exact H5]].
    replace (330 <=? n) with true by (symmetry; apply Z.leb_le; lia).
    reflexivity. }
  replace (330 <=? n) with false by (symmetry; apply Z.leb_gt; lia).
  eexists _, _. split; [reflexivity|]. split; [reflexivity | exact H5].
Qed.

(** What the parser returns for an answer with a first leg. *)
Lemma parse_traffic_data_leg dd o dst r rs lg lgs :
  status dd = Some "OK"%string -> routes dd = r :: rs -> legs r = lg :: lgs ->
  parse_traffic_data dd o dst
  = let '(delay, cond, advice) :=
      traffic_assessment (leg_duration lg) (leg_duration_in_traffic lg) in
    Some (mkTrafficInfo (Some (o ++ " to " ++ dst)%string) delay cond advice).
Proof.
  intros Hs Hr Hl. unfold parse_traffic_data. rewrite Hs, Hr, Hl. reflexivity.
Qed.

Lemma parse_traffic_data_inv dd o dst ti :
  parse_traffic_data dd o dst = Some ti ->
  status dd = Some "OK"%string
  /\ exists r rs lg lgs, routes dd = r :: rs /\ legs r = lg :: lgs.
Proof.
  unfold parse_traffic_data.
  destruct (status dd) as [st|]; [|discriminate].
  destruct (String.eqb st "OK") eqn:E; [|discriminate].
  apply String.eqb_eq in E. subst st.
  destruct (routes dd) as [|r rs]; [discriminate|].
  destruct (legs r) as [|lg lgs] eqn:El; [discriminate|].
  intros _. split; [reflexivity|]. now exists r, rs, lg, lgs.
Qed.

(** X12.  The parser returns nothing exactly for an answer whose status is
    not "OK", that has no route, or whose first route has no leg; what it
    returns describes the route as "<origin> to <destination>" and always
    carries an advice. *)
Theorem traffic_parsed_iff_first_leg dd o dst :
  (parse_traffic_data dd o dst = None
   <-> (status dd <> Some "OK"%string \/ routes dd = []
        \/ exists r rs, routes dd = r :: rs /\ legs r = []))
  /\ forall ti, parse_traffic_data dd o dst = Some ti ->
       route_description ti = Some (o ++ " to " ++ dst)%string
       /\ recommendation ti <> None.
Proof.
  split.
  - split.
    + intros H.
      destruct (status dd) as [st|] eqn:Es; [|left; discriminate].
      destruct (String.eqb st "OK") eqn:E.
      * apply String.eqb_eq in E. subst st. right.
        destruct (routes dd) as [|r rs] eqn:Er; [now left|]. right.
        destruct (legs r) as [|lg lgs] eqn:El; [now exists r, rs|].
        rewrite (@parse_traffic_data_leg dd o dst _ _ _ _ Es Er El) in H.
        destruct (traffic_assessment _ _) as [[? ?] ?]. discriminate.
      * apply String.eqb_neq in E. left. congruence.
    + intros H. destruct (parse_traffic_data dd o dst) as [ti|] eqn:E; [|reflexivity].
      exfalso. apply parse_traffic_data_inv in E.
      destruct E as (Hs & r & rs & lg & lgs & Hr & Hl).
      destruct H as [H | [H | (r' & rs' & H1 & H2)]]; try congruence.
  - intros ti H.
    destruct (parse_traffic_data_inv _ _ _ H) as (Hs & r & rs & lg & lgs & Hr & Hl).
    rewrite (@parse_traffic_data_leg dd o dst _ _ _ _ Hs Hr Hl) in H.
    unfold traffic_assessment in H.
    destruct (leg_duration lg), (leg_duration_in_traffic lg);
      repeat match type of H with context [if ?c then _ else _] => destruct c end;
      inversion H; subst ti; split; (reflexivity || discriminate).
Qed.



(** X14.  The delay is unknown exactly when the first leg lacks one of its
    two durations; the condition is then reported as light, with the advice
    that the delay could not be determined. *)
Theorem traffic_delay_unknown_iff dd o dst r rs lg lgs ti :
  routes dd = r :: rs -> legs r = lg :: lgs ->
  parse_traffic_data dd o dst = Some ti ->
  (delay_minutes ti = None
   <-> leg_duration lg = None \/ leg_duration_in_traffic lg = None)
  /\ (delay_minutes ti = None ->
      condition ti = light
      /\ recommendation ti = Some "Could not determine traffic delay."%string).
Proof.
  intros Hr Hl H.
  destruct (parse_traffic_data_inv _ _ _ H) as (Hs & _).
  rewrite (@parse_traffic_data_leg dd o dst _ _ _ _ Hs Hr Hl) in H.
  destruct (leg_duration lg) as [free|] eqn:Ef;
    [destruct (leg_duration_in_traffic lg) as [busy_|] eqn:Eb|].
  - destruct (traffic_assessment_known free busy_) as (m & advice & E & _).
    rewrite E in H. inversion H; subst ti. cbn.
    split; [split; [discriminate | intros [?|?]; discriminate] | discriminate].
  - inversion H; subst ti. cbn. split; [split; auto | auto].
  - inversion H; subst ti. cbn. split; [split; auto | auto].
Qed.

Lemma traffic_delay_unknown_iff_witness :
  exists ti,
    parse_traffic_data
      (one_leg_answer (mkLeg (Some 1200) None))
      DEFAULT_HOME_LOCATION DEFAULT_WORK_LOCATION = Some ti
    /\ delay_minutes ti = None
    /\ condition ti = light.
Proof.
  assert (E : exists ti,
             parse_traffic_data
               (one_leg_answer (mkLeg (Some 1200) None))
               DEFAULT_HOME_LOCATION DEFAULT_WORK_LOCATION = Some ti)
    by (eexists; vm_compute; reflexivity).
  destruct E as (ti & E). exists ti. split; [exact E|].
  destruct (@traffic_delay_unknown_iff
              (one_leg_answer (mkLeg (Some 1200) None)) _ _
              (mkRoute [mkLeg (Some 1200) None]) []
              (mkLeg (Some 1200) None) [] ti eq_refl eq_refl E)
    as (H1 & H2).
  assert (Hd : delay_minutes ti = None) by (apply H1; right; reflexivity).
  split; [exact Hd | apply (H2 Hd)].
Defined.



(* ------------------------------------------------------------------ *)
(** ** Text search *)

Lemma prefix_app k b : String.prefix k (k ++ b) = true.
Proof.
  induction k as [|c k IH]; [destruct b; reflexivity|].
  simpl. destruct (ascii_dec c c); [exact IH | congruence].
Qed.

Lemma prefix_inv k h : String.prefix k h = true -> exists b, h = (k ++ b)%string.
Proof.
  revert h. induction k as [|c k IH]; intros h H.
  - now exists h.
  - destruct h as [|c' h]; [discriminate|]. simpl in H.
    destruct (ascii_dec c c') as [<-|]; [|discriminate].
    destruct (IH _ H) as [b ->]. now exists b.
Qed.

Lemma contains_step k c h :
  contains k (String c h) = String.prefix k (String c h) || contains k h.
Proof. cbn [contains]. destruct (String.prefix k (String c h)); reflexivity. Qed.

Lemma contains_spec k h : contains k h = true <-> occurs_in k h.
Proof.
  split.
  - induction h as [|c h IH].
    + cbn [contains]. destruct (String.prefix k "") eqn:E; [|discriminate].
      intros _. apply prefix_inv in E. destruct E as [b E].
      exists ""%string, b. exact E.
    + rewrite contains_step. intros H. apply orb_true_iff in H.
      destruct H as [H|H].
      * apply prefix_inv in H. destruct H as [b E].
        exists ""%string, b. exact E.
      * destruct (IH H) as (a & b & ->). now exists (String c a), b.
  - intros (a & b & ->). induction a as [|c a IH].
    + cbn [String.append].
      destruct (k ++ b)%string eqn:E.
      * cbn [contains]. rewrite <- E, prefix_app. reflexivity.
      * rewrite contains_step, <- E, prefix_app. reflexivity.
    + cbn [String.append]. rewrite contains_step, IH. apply orb_true_r.
Qed.

Lemma string_app_assoc (a b c : string) :
  ((a ++ b) ++ c = a ++ (b ++ c))%string.
Proof. induction a as [|x a IH]; simpl; [reflexivity | now rewrite IH]. Qed.

Lemma occurs_in_app k a h b : occurs_in k h -> occurs_in k (a ++ h ++ b).
Proof.
  intros (x & y & ->). exists (a ++ x)%string, (y ++ b)%string.
  now rewrite !string_app_assoc.
Qed.

(* ------------------------------------------------------------------ *)
(** ** The event the commute is checked for *)

Lemma first_commute_inv s dest t :
  first_commute s = Some (dest, t) ->
  exists pre e post,
    s = pre ++ e :: post
    /\ Forall (fun x => morning_with_location x = false) pre
    /\ morning_with_location e = true
    /\ dest = commute_destination e /\ t = start_time e.
Proof.
  induction s as [|x s IH]; cbn [first_commute]; [discriminate|].
  destruct (morning_with_location x) eqn:E.
  - intros H. inversion H; subst. exists [], x, s. auto.
  - intros H. destruct (IH H) as (pre & e & post & -> & Hp & He & Hd & Ht).
    exists (x :: pre), e, post. auto.
Qed.

Lemma first_commute_none s :
  first_commute s = None ->
  Forall (fun x => morning_with_location x = false) s.
Proof.
  induction s as [|x s IH]; cbn [first_commute]; [constructor|].
  destruct (morning_with_location x) eqn:E; [discriminate|].
  intros H. constructor; auto.
Qed.

Lemma commute_destination_has_comma e : occurs_in "," (commute_destination e).
Proof.
  unfold commute_destination.
  destruct (location e) as [loc|].
  - destruct (contains "," loc) eqn:E.
    + now apply contains_spec.
    + apply contains_spec. reflexivity.
  - apply contains_spec. reflexivity.
Qed.

(** X16.  The commute is checked for the earliest event that starts between
    8:00 and 11:59 and has a location: towards that location when it has a
    comma, towards the default work location otherwise, so the destination
    always has a comma.  No such event, no check; start times that mix naive
    and aware values make the search raise. *)
Theorem commute_target_is_earliest_morning_event cs :
  match commute_target cs with
  | Ok (Some (dest, t)) =>
      exists c e,
        cs = Some c /\ In e (events c)
        /\ morning_with_location e = true
        /\ t = start_time e /\ dest = commute_destination e
        /\ occurs_in "," dest
        /\ forall e', In e' (events c) -> morning_with_location e' = true ->
                      instant (start_time e) <= instant (start_time e')
  | Ok None =>
      forall c e, cs = Some c -> In e (events c) ->
                  morning_with_location e = false
  | Raise _ =>
      exists c,
        cs = Some c
        /\ ~ exists b, Forall (fun e => aware (start_time e) = b) (events c)
  end.
Proof.
  unfold commute_target.
  destruct cs as [c|]; [|intros c e H; discriminate H].
  destruct (events c) as [|x l] eqn:El.
  { intros c' e H He. inversion H; subst c'. rewrite El in He. destruct He. }
  rewrite <- El.
  destruct (sorted dt_lt start_time (events c)) as [s|err] eqn:Es; cbn [bind].
  - apply (@sorted_inv _ _ dt_lt start_time instant aware dt_lt_spec) in Es.
    destruct Es as (Hs & _).
    assert (Hp : Permutation (events c) s)
      by (rewrite Hs; apply stable_sort_perm).
    assert (Ha : ascending (fun e => instant (start_time e)) s)
      by (rewrite Hs; apply stable_sort_asc).
    destruct (first_commute s) as [[dest t]|] eqn:Ef.
    + apply first_commute_inv in Ef.
      destruct Ef as (pre & e & post & E & Hpre & He & Hd & Ht).
      exists c, e. split; [reflexivity|].
      assert (Hin : In e s) by (rewrite E; apply in_elt).
      split; [eapply Permutation_in; [symmetry; exact Hp | exact Hin]|].
      split; [exact He|]. split; [exact Ht|]. split; [exact Hd|].
      split; [rewrite Hd; apply commute_destination_has_comma|].
      intros e' He' Hm.
      assert (Hin' : In e' s) by (eapply Permutation_in; eauto).
      rewrite E in Hin', Ha. apply in_app_or in Hin'.
      destruct Hin' as [Hin'|[<-|Hin']].
      * rewrite Forall_forall in Hpre. rewrite (Hpre _ Hin') in Hm. discriminate.
      * lia.
      * apply asc_app_r in Ha. apply asc_head_le in Ha.
        rewrite Forall_forall in Ha. exact (Ha _ Hin').
    + intros c' e H He. inversion H; subst c'.
      apply first_commute_none in Ef. rewrite Forall_forall in Ef.
      apply Ef. eapply Permutation_in; eauto.
  - exists c. split; [reflexivity|]. intros (b & Hb).
    rewrite (@sorted_ok _ _ dt_lt start_time instant aware dt_lt_spec b _ Hb) in Es.
    discriminate.
Qed.

(* ------------------------------------------------------------------ *)
(** ** The priority of an email *)

Lemma any_keyword_spec kws c : any_keyword kws c = true <-> mentions kws c.
Proof.
  unfold any_keyword, mentions. rewrite existsb_exists.
  split; intros (k & Hk & H); exists k; (split; [exact Hk|]);
    now apply contains_spec.
Qed.

Lemma any_keyword_false kws c : any_keyword kws c = false <-> ~ mentions kws c.
Proof.
  rewrite <- any_keyword_spec. destruct (any_keyword kws c); split; intros H;
    try congruence; try discriminate; exfalso; now apply H.
Qed.

(** X17.  The priority of an email is the first level, from urgent down to
    low, one of whose keywords occurs somewhere in its text, inside a longer
    word or not; it is medium when no keyword occurs at all, so a text
    without keywords ranks above one that only says "fyi". *)
Theorem email_priority_by_keywords content :
  (email_priority content = urgent
   <-> mentions (keywords_of urgent) content)
  /\ (email_priority content = high
      <-> ~ mentions (keywords_of urgent) content
          /\ mentions (keywords_of high) content)
  /\ (email_priority content = low
      <-> ~ mentions (keywords_of urgent) content
          /\ ~ mentions (keywords_of high) content
          /\ ~ mentions (keywords_of medium) content
          /\ mentions (keywords_of low) content)
  /\ (email_priority content = medium
      <-> ~ mentions (keywords_of urgent) content
          /\ ~ mentions (keywords_of high) content
          /\ (mentions (keywords_of medium) content
              \/ ~ mentions (keywords_of low) content)).
Proof.
  unfold email_priority, priority_keywords. cbn [map first_level].
  destruct (any_keyword (keywords_of urgent) content) eqn:Eu;
    [apply any_keyword_spec in Eu | apply any_keyword_false in Eu].
  { repeat split; intros; try discriminate; tauto. }
  destruct (any_keyword (keywords_of high) content) eqn:Eh;
    [apply any_keyword_spec in Eh | apply any_keyword_false in Eh].
  { repeat split; intros; try discriminate; tauto. }
  destruct (any_keyword (keywords_of medium) content) eqn:Em;
    [apply any_keyword_spec in Em | apply any_keyword_false in Em].
  { repeat split; intros; try discriminate; tauto. }
  destruct (any_keyword (keywords_of low) content) eqn:El;
    [apply any_keyword_spec in El | apply any_keyword_false in El].
  { repeat split; intros; try discriminate; tauto. }
  repeat split; intros; try discriminate; tauto.
Qed.

Lemma prefix_empty s : String.prefix "" s = true.
Proof. destruct s; reflexivity. Qed.

(** A text without a space that starts [s ++ " " ++ b] starts [s]. *)
Lemma prefix_before_space k : forall s b,
  spaceless k = true ->
  String.prefix k (s ++ " " ++ b) = true -> String.prefix k s = true.
Proof.
  induction k as [|a k IH]; intros s b Hk H; [apply prefix_empty|].
  cbn [spaceless] in Hk. apply andb_true_iff in Hk. destruct Hk as [Ha Hk].
  destruct s as [|c s]; simpl in H |- *.
  - destruct (ascii_dec a " ") as [->|]; [discriminate Ha | discriminate H].
  - destruct (ascii_dec a c); [|discriminate]. exact (IH s b Hk H).
Qed.

Lemma contains_across_space k s b :
  spaceless k = true ->
  contains k (s ++ " " ++ b) = true ->
  contains k s = true \/ contains k b = true.
Proof.
  intros Hk. induction s as [|c s IH].
  - change ("" ++ " " ++ b)%string with (String " " b).
    rewrite contains_step. intros H. apply orb_true_iff in H.
    destruct H as [H|H]; [left|now right].
    apply (@prefix_before_space k ""%string b Hk) in H.
    cbn [contains]. now rewrite H.
  - change (String c s ++ " " ++ b)%string with (String c (s ++ " " ++ b)).
    rewrite contains_step. intros H. apply orb_true_iff in H.
    destruct H as [H|H].
    + left. rewrite contains_step.
      apply (@prefix_before_space k (String c s) b Hk) in H.
      now rewrite H.
    + destruct (IH H) as [H'|H']; [left|now right].
      rewrite contains_step, H'. apply orb_true_r.
Qed.

Lemma occurs_in_content_l k subject body :
  occurs_in k subject -> occurs_in k (email_content subject body).
Proof.
  intros (x & y & ->). exists x, (y ++ " " ++ body)%string.
  unfold email_content. now rewrite !string_app_assoc.
Qed.

Lemma occurs_in_content_r k subject body :
  occurs_in k body -> occurs_in k (email_content subject body).
Proof.
  intros (x & y & ->). exists (subject ++ " " ++ x)%string, y.
  unfold email_content. now rewrite !string_app_assoc.
Qed.

(** X18.  An email is urgent exactly when its subject or its body mentions
    an urgent keyword: joining the two with a space creates no new
    occurrence, and nothing in the other part can lower the level. *)
Theorem urgent_iff_subject_or_body subject body :
  email_priority (email_content subject body) = urgent
  <-> mentions (keywords_of urgent) subject
      \/ mentions (keywords_of urgent) body.
Proof.
  assert (Hu : forall c, email_priority c = urgent
                         <-> mentions (keywords_of urgent) c).
  { intros c. unfold email_priority, priority_keywords. cbn [map first_level].
    destruct (any_keyword (keywords_of urgent) c) eqn:Eu;
      [apply any_keyword_spec in Eu; tauto | apply any_keyword_false in Eu].
    split; [|tauto].
    destruct (any_keyword (keywords_of high) c); [discriminate|].
    destruct (any_keyword (keywords_of medium) c); [discriminate|].
    destruct (any_keyword (keywords_of low) c); discriminate. }
  rewrite Hu. split.
  - intros (k & Hk & Ho).
    assert (Hs : spaceless k = true).
    { cbn in Hk. destruct Hk as [<-|[<-|[<-|[<-|[]]]]]; reflexivity. }
    apply contains_spec in Ho. unfold email_content in Ho.
    apply (@contains_across_space k subject body Hs) in Ho.
    destruct Ho as [Ho|Ho]; apply contains_spec in Ho;
      [left | right]; now exists k.
  - intros [(k & Hk & Ho)|(k & Hk & Ho)]; exists k; (split; [exact Hk|]).
    + now apply occurs_in_content_l.
    + now apply occurs_in_content_r.
Qed.

(** A keyword with a space can straddle the subject and the body. *)
Example due_soon_across_subject_and_body :
  email_priority (email_content "report due" "soon, thanks") = high
  /\ email_priority "report due" = medium
  /\ email_priority "soon, thanks" = medium.
Proof. repeat split; vm_compute; reflexivity. Qed.

(* ------------------------------------------------------------------ *)
(** ** The planner and its agents *)

(** How many items of each kind the plan holds. *)
Lemma combine_agent_outputs_counts today d cs tl ci :
  exists p,
    combine_agent_outputs today d cs tl ci = Ok p
    /\ plan_date p = d
    /\ count_items event (plan p) = len_or_zero events cs
    /\ count_items task (plan p) = len_or_zero tasks tl
    /\ count_items recommendation_item (plan p)
       = len_or_zero recommendations ci.
Proof.
  eexists. split; [apply combine_agent_outputs_eq|].
  cbn [plan plan_date].
  pose proof (event_items_type (present events cs)) as He.
  pose proof (task_items_type today
                (stable_sort priority_key (present tasks tl)) 0) as Ht.
  pose proof (recommendation_items_type (present recommendations ci)) as Hr.
  rewrite !count_items_sorted, !count_items_app.
  rewrite (count_items_all He), (count_items_all Ht), (count_items_all Hr).
  rewrite (@count_items_none event task _ eq_refl Ht),
    (@count_items_none event recommendation_item _ eq_refl Hr),
    (@count_items_none task event _ eq_refl He),
    (@count_items_none task recommendation_item _ eq_refl Hr),
    (@count_items_none recommendation_item event _ eq_refl He),
    (@count_items_none recommendation_item task _ eq_refl Ht).
  rewrite task_items_length, stable_sort_length.
  unfold event_items, recommendation_items.
  rewrite !length_map, !len_or_zero_present.
  repeat split; lia.
Qed.


(** X20.  With a date and a calendar summary the plan is made for that date.
    It holds the events of the summary when the summary is of that date and
    none otherwise, the tasks when the email agent returned, the
    recommendations when the context agent returned: a failed agent costs its
    own items only. *)
Theorem failed_agents_cost_their_own_items today d c email context :
  exists p,
    run_planner today (Some d) (Returned c) email context = Ok (Some p)
    /\ plan_date p = d
    /\ count_items event (plan p)
       = (if date_eqb (summary_date c) d then List.length (events c) else 0%nat)
    /\ count_items task (plan p)
       = match email with
         | Returned t => List.length (tasks t)
         | Failed => 0%nat
         end
    /\ count_items recommendation_item (plan p)
       = match context with
         | Returned x => List.length (recommendations x)
         | Failed => 0%nat
         end.
Proof.
  cbn [run_planner].
  destruct (combine_agent_outputs_counts today d
              (if date_eqb (summary_date c) d then Some c else None)
              match email with Returned t => Some t | Failed => None end
              match context with Returned x => Some x | Failed => None end)
    as (p & E & Hd & He & Ht & Hr).
  exists p. rewrite E. split; [reflexivity|]. split; [exact Hd|].
  split; [|split].
  - rewrite He. destruct (date_eqb (summary_date c) d); reflexivity.
  - rewrite Ht. destruct email; reflexivity.
  - rewrite Hr. destruct context; reflexivity.
Qed.

Lemma parsed_events_in e entries :
  In (Some e) entries -> In e (parsed_events entries).
Proof.
  induction entries as [|[x|] entries IH]; cbn [parsed_events]; intros H.
  - destruct H.
  - destruct H as [H|H]; [left; congruence | right; auto].
  - destruct H as [H|H]; [discriminate | auto].
Qed.

(** X21.  When two entries of the answer of the tool build events whose
    starts differ in awareness (a timestamp with an offset beside one
    without), the agent returns the empty summary of the day: no event, no
    free slot, no conflict. *)
Theorem invoke_drops_a_day_of_mixed_timestamps today d entries a b :
  In (Some a) entries -> In (Some b) entries ->
  aware (start_time a) <> aware (start_time b) ->
  calendar_invoke today (GoodDate d) (ReplyEntries entries) = empty_summary d.
Proof.
  intros Ha Hb Hne. cbn [calendar_invoke]. unfold analysis_or_empty.
  apply parsed_events_in in Ha, Hb.
  unfold analyze_schedule, sort_events.
  rewrite (@sorted_mixed _ _ dt_lt start_time instant aware dt_lt_spec
             _ a b Ha Hb Hne).
  reflexivity.
Qed.

Lemma invoke_drops_a_day_of_mixed_timestamps_witness :
  calendar_invoke sample_day (GoodDate sample_day)
    (ReplyEntries
       [Some (all_day_event sample_day sample_day "Holiday" None);
        None;
        Some (meeting "Call" 10 0 11 0 (Some utc))])
  = empty_summary sample_day.
Proof.
  apply (@invoke_drops_a_day_of_mixed_timestamps sample_day sample_day _
           (all_day_event sample_day sample_day "Holiday" None)
           (meeting "Call" 10 0 11 0 (Some utc))).
  - simpl. auto.
  - simpl. auto.
  - vm_compute. discriminate.
Defined.

Lemma analysis_or_empty_date d l : summary_date (analysis_or_empty d l) = d.
Proof.
  unfold analysis_or_empty.
  destruct (analyze_schedule d l) as [s|e] eqn:E; [|reflexivity].
  now destruct (analyze_schedule_run _ _ E) as (Hd & _).
Qed.

Lemma date_eqb_refl d : date_eqb d d = true.
Proof. unfold date_eqb. now rewrite !Z.eqb_refl. Qed.

(** X22.  Whatever the tool answers, the summary the calendar agent returns
    carries the date that was asked for, and today's date when none or an
    invalid one was given. *)
Theorem invoke_returns_the_date_asked_for today date_str reply :
  summary_date (calendar_invoke today date_str reply)
  = match date_str with
    | GoodDate d => d
    | _ => today
    end.
Proof.
  destruct date_str as [| |d]; destruct reply; cbn [calendar_invoke];
    try reflexivity; apply analysis_or_empty_date.
Qed.

(** X23.  The planner never discards what its calendar agent returns for
    the date of the plan: the plan holds one event item for each event of
    that summary. *)
Theorem planner_keeps_the_invoked_summary today today' d reply email context :
  exists p,
    run_planner today (Some d)
      (Returned (calendar_invoke today' (GoodDate d) reply)) email context
    = Ok (Some p)
    /\ count_items event (plan p)
       = List.length (events (calendar_invoke today' (GoodDate d) reply)).
Proof.
  set (c := calendar_invoke today' (GoodDate d) reply).
  assert (Hc : date_eqb (summary_date c) d = true).
  { unfold c. destruct reply; cbn [calendar_invoke];
      rewrite ?analysis_or_empty_date; apply date_eqb_refl. }
  cbn [run_planner]. rewrite Hc.
  destruct (combine_agent_outputs_counts today d (Some c)
              match email with Returned t => Some t | Failed => None end
              match context with Returned x => Some x | Failed => None end)
    as (p & E & _ & He & _).
  exists p. rewrite E. split; [reflexivity | exact He].
Qed.

(* ------------------------------------------------------------------ *)
(** ** All-day events *)

Lemma all_day_event_fills d a b title where_ :
  toordinal a <= toordinal d <= toordinal b ->
  fills_working_hours d None (all_day_event a b title where_).
Proof.
  intros H. unfold fills_working_hours, clamped_start, clamped_end,
    window_start, window_end, event_start_aware, event_end_aware,
    to_day_zone, all_day_event, combine, instant, work_start, work_end,
    time_min, time_max, time_hm, usec_per_day, usec_per_hour, usec_per_minute.
  cbn. lia.
Qed.

(** X24.  An all-day event whose days include the day analysed leaves no
    free slot. *)
Theorem all_day_event_leaves_no_free_slot d l s a b title where_ :
  analyze_schedule d l = Ok s ->
  In (all_day_event a b title where_) l ->
  toordinal a <= toordinal d <= toordinal b ->
  free_slots s = [].
Proof.
  intros H He Hd.
  destruct (analyze_schedule_run _ _ H) as (_ & Hs & _).
  pose proof (sorted_events_awareness _ Hs) as Haw.
  destruct (analyze_schedule_free_slots _ _ H) as (Hev & _ & Hok & Hdis & _).
  assert (He' : In (all_day_event a b title where_) (events s)).
  { rewrite Hev. eapply Permutation_in; [apply stable_sort_perm | exact He]. }
  assert (Htz : first_tzinfo (events s) = None).
  { rewrite Forall_forall in Haw. specialize (Haw _ He').
    destruct (first_tzinfo (events s)); [discriminate Haw | reflexivity]. }
  rewrite Htz in Hok, Hdis.
  destruct (@all_day_event_fills d a b title where_ Hd) as (Hcs & Hce).
  destruct (free_slots s) as [|f fs] eqn:E; [reflexivity|]. exfalso.
  inversion_clear Hok as [|? ? (H1 & H2 & H3 & _) _].
  pose proof min_free_duration_pos.
  apply (Hdis f (all_day_event a b title where_) (slot_start f));
    [now left | exact He' | |].
  - unfold in_slot. lia.
  - unfold in_event. lia.
Qed.

Lemma all_day_event_leaves_no_free_slot_witness :
  exists s,
    analyze_schedule sample_day
      [meeting "A" 9 0 10 0 None;
       all_day_event sample_day sample_day "Holiday" None] = Ok s
    /\ free_slots s = [].
Proof.
  assert (E : exists s,
             analyze_schedule sample_day
               [meeting "A" 9 0 10 0 None;
                all_day_event sample_day sample_day "Holiday" None] = Ok s)
    by (eexists; vm_compute; reflexivity).
  destruct E as [s E]. exists s. split; [exact E|].
  apply (@all_day_event_leaves_no_free_slot sample_day _ s
           sample_day sample_day "Holiday" None E).
  - simpl. auto.
  - lia.
Defined.

(* ------------------------------------------------------------------ *)
(** ** The commute in the plan *)

Lemma commute_recommendation_inv t ti r :
  commute_recommendation t ti = Some r ->
  r = mkContextRecommendation traffic (DetailsTraffic ti)
        (Some (commute_impact_time t ti)).
Proof.
  unfold commute_recommendation.
  destruct (notable_traffic ti) as [[|]|]; intros H; inversion H; reflexivity.
Qed.

(** A time of day from 8:00 on, moved back by at most eight hours, stays in
    its day. *)
Lemma time_of_day_moved_back w k :
  8 <= (w mod usec_per_day) / usec_per_hour -> 30 <= k <= 480 ->
  (w - minutes k) mod usec_per_day + minutes 30 <= w mod usec_per_day.
Proof.
  unfold minutes.
  change usec_per_day with 86400000000.
  change usec_per_hour with 3600000000.
  change usec_per_minute with 60000000.
  intros H8 Hk.
  pose proof (Z.mod_pos_bound w 86400000000 ltac:(lia)) as Hb.
  assert (H480 : 8 * 3600000000 <= w mod 86400000000).
  { pose proof (Z.mul_div_le (w mod 86400000000) 3600000000 ltac:(lia)). lia. }
  rewrite (Z.mod_eq w 86400000000) in H480, Hb |- * by lia.
  set (q := w / 86400000000) in *.
  replace (w - k * 60000000)
    with ((w - 86400000000 * q - k * 60000000) + q * 86400000000) by lia.
  rewrite Z.mod_add by lia.
  rewrite Z.mod_small by lia. lia.
Qed.

(** X25.  In the plan the advice for the commute stands before the event it
    is about, thirty minutes at least, as long as the delay is between 0 and
    450 minutes: the time of the advice does not wrap around midnight. *)
Theorem commute_advice_precedes_its_event e ti r :
  morning_with_location e = true ->
  commute_recommendation (start_time e) ti = Some r ->
  (forall m, delay_minutes ti = Some m -> 0 <= m <= 450) ->
  forall i j,
    In i (recommendation_items [r]) -> In j (event_items [e]) ->
    plan_key i + minutes 30 <= plan_key j.
Proof.
  intros Hm Hr Hd i j Hi Hj.
  apply commute_recommendation_inv in Hr. subst r.
  destruct Hi as [<-|[]]. destruct Hj as [<-|[]].
  unfold plan_key, time_instant.
  cbn [item_time dt_time time_tz tod impact_time].
  unfold morning_with_location in Hm.
  apply andb_true_iff in Hm. destruct Hm as [Hm _].
  apply andb_true_iff in Hm. destruct Hm as [H8 _].
  apply Z.leb_le in H8. unfold dt_hour in H8.
  assert (Hk : exists k, 30 <= k <= 480
                 /\ wall (commute_impact_time (start_time e) ti)
                    = wall (start_time e) - minutes k).
  { unfold commute_impact_time.
    destruct (delay_minutes ti) as [m|] eqn:E.
    - specialize (Hd m eq_refl).
      destruct (m =? 0) eqn:E0.
      + exists 60. split; [lia|]. cbn [dt_add wall]. lia.
      + apply Z.eqb_neq in E0. exists (m + 30). split; [lia|].
        cbn [dt_add wall]. lia.
    - exists 60. split; [lia|]. cbn [dt_add wall]. lia. }
  destruct Hk as (k & Hk & ->).
  now apply time_of_day_moved_back.
Qed.

Lemma commute_advice_precedes_its_event_witness :
  exists r,
    commute_recommendation (at_time 9 0 None)
      (mkTrafficInfo None (Some 20) heavy None) = Some r
    /\ forall i j,
         In i (recommendation_items [r]) ->
         In j (event_items
                 [mkCalendarEvent (at_time 9 0 None) (at_time 10 0 None)
                    "Standup" (Some "Office"%string)]) ->
         plan_key i + minutes 30 <= plan_key j.
Proof.
  assert (E : exists r,
             commute_recommendation (at_time 9 0 None)
               (mkTrafficInfo None (Some 20) heavy None) = Some r)
    by (eexists; vm_compute; reflexivity).
  destruct E as [r E]. exists r. split; [exact E|].
  apply (@commute_advice_precedes_its_event
           (mkCalendarEvent (at_time 9 0 None) (at_time 10 0 None)
              "Standup" (Some "Office"%string))
           (mkTrafficInfo None (Some 20) heavy None) r).
  - vm_compute. reflexivity.
  - exact E.
  - intros m H. cbn in H. inversion H. lia.
Defined.
